(** * A blogging REST API over an ORM: shallow embedding and verification

    The development follows the two source files of the repository:

    - the schema file ([loadSequelize]): three models, their associations,
      and the forced synchronisation at boot;
    - the application file ([main]): the authentication middleware
      [isLoggedInJWT] and the route handlers.

    Handlers are functions in a small state-and-exception monad over a
    [World] that holds the relational store.  What the program delegates to
    its libraries (password hashing, token signing, the engine's casts of
    request values to column values) is an interface, [Platform]; every
    theorem holds for every implementation of it. *)

From Stdlib Require Import ZArith List String Bool Lia.
Import ListNotations.

Local Open Scope string_scope.
Local Open Scope Z_scope.

(* ================================================================= *)
(** * JavaScript values *)

#[local] Set Warnings "-register-all".

(** Values that travel in request bodies, cookies and responses.  Numbers
    are integers here: every number the handlers compute with is a row id. *)
Inductive json : Type :=
| JUndefined
| JNull
| JBool (b : bool)
| JNum (n : Z)
| JStr (s : string)
| JArr (items : list json)
| JObj (fields : list (string * json)).

(** [!v] is [negb (truthy v)]. *)
Definition truthy (v : json) : bool :=
  match v with
  | JUndefined | JNull => false
  | JBool b => b
  | JNum n => negb (n =? 0)
  | JStr s => negb (s =? "")%string
  | JArr _ | JObj _ => true
  end.

(** [a === b].  Primitives compare by value.  Arrays and objects compare by
    identity; the handlers only ever compare two values that were built
    separately, so two of them are never the same object. *)
Definition strict_eq (a b : json) : bool :=
  match a, b with
  | JUndefined, JUndefined => true
  | JNull, JNull => true
  | JBool x, JBool y => Bool.eqb x y
  | JNum x, JNum y => x =? y
  | JStr x, JStr y => (x =? y)%string
  | _, _ => false
  end.

Definition strict_neq (a b : json) : bool := negb (strict_eq a b).

(** Property access [o.k] on the own properties of an object: the first
    binding of [k], [undefined] when there is none. *)
Fixpoint prop (k : string) (fields : list (string * json)) : json :=
  match fields with
  | [] => JUndefined
  | (k', v) :: rest => if (k =? k')%string then v else prop k rest
  end.

(** [v.k] on an arbitrary value that is not [null] or [undefined]. *)
Definition member (k : string) (v : json) : json :=
  match v with
  | JObj fields => prop k fields
  | _ => JUndefined
  end.

Definition keys (fields : list (string * json)) : list string :=
  map fst fields.

(** Whether key [k] occurs anywhere inside a value, at any depth. *)
Fixpoint mentions_key (k : string) (v : json) {struct v} : bool :=
  match v with
  | JArr items =>
      (fix any (l : list json) : bool :=
         match l with
         | [] => false
         | x :: l' => mentions_key k x || any l'
         end) items
  | JObj fields =>
      (fix any (l : list (string * json)) : bool :=
         match l with
         | [] => false
         | (k', x) :: l' => (k =? k')%string || mentions_key k x || any l'
         end) fields
  | _ => false
  end.

Definition json_of_string (o : option string) : json :=
  match o with Some s => JStr s | None => JNull end.

Definition json_of_key (o : option Z) : json :=
  match o with Some n => JNum n | None => JNull end.

(* ================================================================= *)
(** * The schema file *)

Inductive DataType : Type := STRING | TEXT.

(** The options of one attribute of a model. *)
Record Attribute : Type := {
  type : DataType;
  allowNull : bool;
  unique : bool
}.

(** The shorthand [name: DataTypes.T]: a type and every option at its
    default. *)
Definition column (t : DataType) : Attribute :=
  {| type := t; allowNull := true; unique := false |}.

Record ModelDef : Type := {
  modelName : string;
  attributes : list (string * Attribute)
}.

Definition define (name : string) (attrs : list (string * Attribute)) : ModelDef :=
  {| modelName := name; attributes := attrs |}.

Definition UserDef : ModelDef :=
  define "User"
    [ ("username", column STRING);
      ("email", column STRING);
      ("password", column STRING) ].

Definition PostDef : ModelDef :=
  define "Post"
    [ ("title", column TEXT);
      ("content", column TEXT) ].

Definition CommentDef : ModelDef :=
  define "Comment"
    [ ("content", column TEXT) ].

(** [Child.belongsTo(Parent)]: the child table gets a nullable column
    [ParentId] that references the parent's [id]. *)
Definition belongsTo : list (string * string) :=
  [ ("Post", "User"); ("Comment", "User"); ("Comment", "Post") ].

(** [Parent.hasMany(Child)]. *)
Definition hasMany : list (string * string) :=
  [ ("User", "Post"); ("User", "Comment"); ("Post", "Comment") ].

Fixpoint attribute (name : string) (attrs : list (string * Attribute)) : option Attribute :=
  match attrs with
  | [] => None
  | (n, a) :: rest => if (name =? n)%string then Some a else attribute name rest
  end.

Definition is_unique (m : ModelDef) (name : string) : bool :=
  match attribute name (attributes m) with
  | Some a => unique a
  | None => false
  end.

Definition references (child parent : string) : bool :=
  existsb (fun '(c, p) => (c =? child)%string && (p =? parent)%string) belongsTo.

(* ================================================================= *)
(** * Rows and tables *)

(** Every model has the implicit attributes [id], [createdAt] and
    [updatedAt]; a declared attribute is a nullable column. *)
Module User.
Record t : Type := {
  id : Z;
  username : option string;
  email : option string;
  password : option string;
  createdAt : Z;
  updatedAt : Z
}.

(** The instance as [response.json] serialises it: all attributes. *)
Definition toJSON (u : t) : list (string * json) :=
  [ ("id", JNum (id u));
    ("username", json_of_string (username u));
    ("email", json_of_string (email u));
    ("password", json_of_string (password u));
    ("createdAt", JNum (createdAt u));
    ("updatedAt", JNum (updatedAt u)) ].
End User.

Module Post.
Record t : Type := {
  id : Z;
  title : option string;
  content : option string;
  createdAt : Z;
  updatedAt : Z;
  UserId : option Z
}.

Definition toJSON (p : t) : list (string * json) :=
  [ ("id", JNum (id p));
    ("title", json_of_string (title p));
    ("content", json_of_string (content p));
    ("createdAt", JNum (createdAt p));
    ("updatedAt", JNum (updatedAt p));
    ("UserId", json_of_key (UserId p)) ].
End Post.

Module Comment.
Record t : Type := {
  id : Z;
  content : option string;
  createdAt : Z;
  updatedAt : Z;
  UserId : option Z;
  PostId : option Z
}.

Definition toJSON (c : t) : list (string * json) :=
  [ ("id", JNum (id c));
    ("content", json_of_string (content c));
    ("createdAt", JNum (createdAt c));
    ("updatedAt", JNum (updatedAt c));
    ("UserId", json_of_key (UserId c));
    ("PostId", json_of_key (PostId c)) ].
End Comment.

(** A table: its rows in insertion order and its auto-increment counter. *)
Record Table (A : Type) : Type := {
  rows : list A;
  nextId : Z
}.
Arguments rows {A} _.
Arguments nextId {A} _.

Definition empty_table {A : Type} : Table A := {| rows := []; nextId := 1 |}.

Definition insert_row {A : Type} (r : A) (t : Table A) : Table A :=
  {| rows := rows t ++ [r]; nextId := nextId t + 1 |}.

Record Database : Type := {
  Users : Table User.t;
  Posts : Table Post.t;
  Comments : Table Comment.t
}.

Definition empty_db : Database :=
  {| Users := empty_table; Posts := empty_table; Comments := empty_table |}.

(* ================================================================= *)
(** * The world and the monad of handlers *)

(** [faults] is the environment's script for the coming round trips to the
    database server: [true] makes the next one fail.  [now] is the clock. *)
Record World : Type := {
  db : Database;
  faults : list bool;
  now : Z
}.

Inductive Result (A : Type) : Type :=
| Ok (a : A)
| Throw (message : string).
Arguments Ok {A} a.
Arguments Throw {A} message.

Definition M (A : Type) : Type := World -> Result A * World.

Definition ret {A : Type} (a : A) : M A := fun w => (Ok a, w).

Definition throw {A : Type} (message : string) : M A := fun w => (Throw message, w).

Definition bind {A B : Type} (m : M A) (k : A -> M B) : M B :=
  fun w =>
    match m w with
    | (Ok a, w') => k a w'
    | (Throw e, w') => (Throw e, w')
    end.

(** [try { body } catch (error) { handler }]. *)
Definition try_catch {A : Type} (body : M A) (handler : string -> M A) : M A :=
  fun w =>
    match body w with
    | (Ok a, w') => (Ok a, w')
    | (Throw e, w') => handler e w'
    end.

Declare Scope handler_scope.
Delimit Scope handler_scope with handler.
Notation "'let*' x := m 'in' k" := (bind m (fun x => k))
  (at level 10, x name, m at level 100, k at level 200) : handler_scope.
Notation "m ;; k" := (bind m (fun _ => k))
  (at level 100, k at level 200, right associativity) : handler_scope.
Local Open Scope handler_scope.

Definition get_db : M Database := fun w => (Ok (db w), w).

Definition put_db (d : Database) : M unit :=
  fun w => (Ok tt, {| db := d; faults := faults w; now := now w |}).

Definition get_now : M Z := fun w => (Ok (now w), w).

(** One round trip to the database server. *)
Definition query : M unit :=
  fun w =>
    match faults w with
    | [] => (Ok tt, w)
    | false :: rest => (Ok tt, {| db := db w; faults := rest; now := now w |})
    | true :: rest =>
        (Throw "SequelizeConnectionError",
         {| db := db w; faults := rest; now := now w |})
    end.

(** A library promise: fulfilled with a value, or rejected. *)
Definition await {A : Type} (rejection : string) (o : option A) : M A :=
  match o with
  | Some a => ret a
  | None => throw rejection
  end.

(* ================================================================= *)
(** * What the program takes from its libraries *)

(** [None] is a rejected promise or a thrown exception.  The two casts are
    the engine's conversion of a request value to a column value, the same
    in a comparison and in an insert; [sql_eq] is the comparison of two
    strings under the column's collation. *)
Class Platform : Type := {
  bcrypt_hash : json -> Z -> option string;
  bcrypt_compare : json -> json -> option bool;
  jwt_sign : json -> string -> Z -> Z -> string;
  jwt_verify : json -> string -> Z -> option json;
  toSTRING : json -> option string;
  toINTEGER : json -> option Z;
  sql_eq : string -> string -> bool;
  NODE_ENV : json
}.

(** An instance as [Model.create(values)] resolves to it: the row that the
    insert has stored, and the data values that the instance carries and
    that [res.json] serialises. *)
Record Instance (A : Type) : Type := {
  stored : A;
  dataValues : list (string * json)
}.
Arguments stored {A} _.
Arguments dataValues {A} _.

(** The values of an object that serialisation keeps: a property that is
    [undefined] leaves no key. *)
Definition present (values : list (string * json)) : list (string * json) :=
  filter (fun '(_, v) => match v with JUndefined => false | _ => true end) values.

(** The data values of a created instance: the key given by the insert,
    the values as the caller passed them (not cast to the columns), and
    the two timestamps. *)
Definition built (key : Z) (values : list (string * json)) (t : Z)
    : list (string * json) :=
  (("id", JNum key) :: present values ++ [("updatedAt", JNum t); ("createdAt", JNum t)])%list.

Definition key_eqb (a b : option Z) : bool :=
  match a, b with
  | Some x, Some y => x =? y
  | _, _ => false
  end.

Definition set_rows {A : Type} (l : list A) (t : Table A) : Table A :=
  {| rows := l; nextId := nextId t |}.

Section Sequelize.
Context {platform : Platform}.

(** A value bound to a nullable column: [undefined] and [null] are stored
    as [NULL], anything else goes through the engine's cast. *)
Definition column_value {A : Type} (cast : json -> option A) (v : json)
    : option (option A) :=
  match v with
  | JUndefined | JNull => Some None
  | _ => option_map Some (cast v)
  end.

Definition nullable {A : Type} (cast : json -> option A) (v : json) : M (option A) :=
  await "SequelizeDatabaseError" (column_value cast v).

(** A value compared with a column in a [where] clause. *)
Definition where_value {A : Type} (cast : json -> option A) (v : json) : M (option A) :=
  match v with
  | JUndefined => throw "WHERE parameter has invalid undefined value"
  | JNull => ret None
  | _ => let* a := await "SequelizeDatabaseError" (cast v) in ret (Some a)
  end.

(** Two column values are equal in SQL; [NULL] equals nothing. *)
Definition string_matches (a b : option string) : bool :=
  match a, b with
  | Some x, Some y => sql_eq x y
  | _, _ => false
  end.

(** [where: { column: v }]: [column = v], and [column IS NULL] for [null]. *)
Definition where_matches (column v : option string) : bool :=
  match v with
  | Some _ => string_matches column v
  | None => match column with None => true | Some _ => false end
  end.

(** The check of a unique index, for an attribute declared unique. *)
Definition check_unique (m : ModelDef) (name : string)
    (v : option string) (existing : list (option string)) : M unit :=
  if is_unique m name && existsb (string_matches v) existing
  then throw "SequelizeUniqueConstraintError"
  else ret tt.

(** The check of a foreign key, for a declared association. *)
Definition check_reference (child parent : string)
    (fk : option Z) (ids : list Z) : M unit :=
  match fk with
  | None => ret tt
  | Some k =>
      if references child parent && negb (existsb (Z.eqb k) ids)
      then throw "SequelizeForeignKeyConstraintError"
      else ret tt
  end.

(** ** Model [User] *)

Definition User_findAll : M (list User.t) :=
  query ;;
  let* d := get_db in
  ret (rows (Users d)).

(** [User.findOne({ where: { email } })]. *)
Definition User_findOne_where_email (email : json) : M (option User.t) :=
  query ;;
  let* e := where_value toSTRING email in
  let* d := get_db in
  ret (find (fun u => where_matches (User.email u) e) (rows (Users d))).

Definition User_find (k : Z) (d : Database) : option User.t :=
  find (fun u => User.id u =? k) (rows (Users d)).

Definition User_findByPk (key : json) : M (option User.t) :=
  match key with
  | JUndefined | JNull => ret None
  | _ =>
      query ;;
      let* k := await "SequelizeDatabaseError" (toINTEGER key) in
      let* d := get_db in
      ret (User_find k d)
  end.

(** [User.create(values)]. *)
Definition User_create (values : list (string * json)) : M User.t :=
  query ;;
  let* username := nullable toSTRING (prop "username" values) in
  let* email := nullable toSTRING (prop "email" values) in
  let* password := nullable toSTRING (prop "password" values) in
  let* d := get_db in
  check_unique UserDef "username" username (map User.username (rows (Users d))) ;;
  check_unique UserDef "email" email (map User.email (rows (Users d))) ;;
  check_unique UserDef "password" password (map User.password (rows (Users d))) ;;
  let* t := get_now in
  let u := {| User.id := nextId (Users d);
              User.username := username;
              User.email := email;
              User.password := password;
              User.createdAt := t;
              User.updatedAt := t |} in
  put_db {| Users := insert_row u (Users d);
            Posts := Posts d;
            Comments := Comments d |} ;;
  ret u.

(** ** Model [Post] *)

Definition Post_find (k : Z) (d : Database) : option Post.t :=
  find (fun p => Post.id p =? k) (rows (Posts d)).

Definition Post_findByPk (key : json) : M (option Post.t) :=
  match key with
  | JUndefined | JNull => ret None
  | _ =>
      query ;;
      let* k := await "SequelizeDatabaseError" (toINTEGER key) in
      let* d := get_db in
      ret (Post_find k d)
  end.

(** The [INSERT] that [Post.create(values)] sends: the values cast to the
    columns, the constraints checked, the row stored under the next key. *)
Definition Post_insert (values : list (string * json)) : M Post.t :=
  query ;;
  let* title := nullable toSTRING (prop "title" values) in
  let* content := nullable toSTRING (prop "content" values) in
  let* UserId := nullable toINTEGER (prop "UserId" values) in
  let* d := get_db in
  check_unique PostDef "title" title (map Post.title (rows (Posts d))) ;;
  check_unique PostDef "content" content (map Post.content (rows (Posts d))) ;;
  check_reference "Post" "User" UserId (map User.id (rows (Users d))) ;;
  let* t := get_now in
  let p := {| Post.id := nextId (Posts d);
              Post.title := title;
              Post.content := content;
              Post.createdAt := t;
              Post.updatedAt := t;
              Post.UserId := UserId |} in
  put_db {| Users := Users d;
            Posts := insert_row p (Posts d);
            Comments := Comments d |} ;;
  ret p.

(** [Post.create(values)]. *)
Definition Post_create (values : list (string * json)) : M (Instance Post.t) :=
  let* p := Post_insert values in
  ret {| stored := p;
         dataValues := built (Post.id p) values (Post.createdAt p) |}.

(** The comments of a deleted post keep their row and lose the
    reference (the association's default, [ON DELETE SET NULL]). *)
Definition orphan (k : Z) (c : Comment.t) : Comment.t :=
  if references "Comment" "Post" && key_eqb (Comment.PostId c) (Some k)
  then {| Comment.id := Comment.id c;
          Comment.content := Comment.content c;
          Comment.createdAt := Comment.createdAt c;
          Comment.updatedAt := Comment.updatedAt c;
          Comment.UserId := Comment.UserId c;
          Comment.PostId := None |}
  else c.

(** [post.destroy()]. *)
Definition Post_destroy (p : Post.t) : M unit :=
  query ;;
  let* d := get_db in
  put_db {| Users := Users d;
            Posts := set_rows
                       (filter (fun q => negb (Post.id q =? Post.id p)) (rows (Posts d)))
                       (Posts d);
            Comments := set_rows (map (orphan (Post.id p)) (rows (Comments d)))
                          (Comments d) |}.

(** ** Model [Comment] *)

Definition Comment_find (k : Z) (d : Database) : option Comment.t :=
  find (fun c => Comment.id c =? k) (rows (Comments d)).

Definition Comment_findByPk (key : json) : M (option Comment.t) :=
  match key with
  | JUndefined | JNull => ret None
  | _ =>
      query ;;
      let* k := await "SequelizeDatabaseError" (toINTEGER key) in
      let* d := get_db in
      ret (Comment_find k d)
  end.

(** The [INSERT] that [Comment.create(values)] sends. *)
Definition Comment_insert (values : list (string * json)) : M Comment.t :=
  query ;;
  let* content := nullable toSTRING (prop "content" values) in
  let* PostId := nullable toINTEGER (prop "PostId" values) in
  let* UserId := nullable toINTEGER (prop "UserId" values) in
  let* d := get_db in
  check_unique CommentDef "content" content (map Comment.content (rows (Comments d))) ;;
  check_reference "Comment" "Post" PostId (map Post.id (rows (Posts d))) ;;
  check_reference "Comment" "User" UserId (map User.id (rows (Users d))) ;;
  let* t := get_now in
  let c := {| Comment.id := nextId (Comments d);
              Comment.content := content;
              Comment.createdAt := t;
              Comment.updatedAt := t;
              Comment.UserId := UserId;
              Comment.PostId := PostId |} in
  put_db {| Users := Users d;
            Posts := Posts d;
            Comments := insert_row c (Comments d) |} ;;
  ret c.

(** [Comment.create(values)]. *)
Definition Comment_create (values : list (string * json)) : M (Instance Comment.t) :=
  let* c := Comment_insert values in
  ret {| stored := c;
         dataValues := built (Comment.id c) values (Comment.createdAt c) |}.

(** [comment.destroy()]. *)
Definition Comment_destroy (c : Comment.t) : M unit :=
  query ;;
  let* d := get_db in
  put_db {| Users := Users d;
            Posts := Posts d;
            Comments := set_rows
                          (filter (fun q => negb (Comment.id q =? Comment.id c))
                             (rows (Comments d)))
                          (Comments d) |}.

(** ** Eager loading *)

(** [attributes: [...]]: the listed attributes of a serialised row, in
    the order listed. *)
Definition pick (attrs : list string) (fields : list (string * json)) : list (string * json) :=
  map (fun a => (a, prop a fields)) attrs.

(** [{ model: User, attributes }] under a row that belongs to a user:
    the referenced row projected, [null] when there is none. *)
Definition include_User (attrs : list string) (d : Database) (fk : option Z) : json :=
  match fk with
  | None => JNull
  | Some k =>
      match User_find k d with
      | Some u => JObj (pick attrs (User.toJSON u))
      | None => JNull
      end
  end.

(** [{ model: Comment, include: [{ model: User, attributes }] }] under a
    post. *)
Definition include_Comments (attrs : list string) (d : Database) (postId : Z) : json :=
  JArr (map (fun c => JObj (Comment.toJSON c
                             ++ [("User", include_User attrs d (Comment.UserId c))]))
            (filter (fun c => key_eqb (Comment.PostId c) (Some postId))
                    (rows (Comments d)))).

(** [{ model: Post, include: [{ model: Comment, ... }] }] under a user. *)
Definition include_Posts (attrs : list string) (d : Database) (userId : Z) : json :=
  JArr (map (fun p => JObj (Post.toJSON p
                             ++ [("Comments", include_Comments attrs d (Post.id p))]))
            (filter (fun p => key_eqb (Post.UserId p) (Some userId))
                    (rows (Posts d)))).

(** [Post.findAll({ include: [{ model: User, attributes: author },
    { model: Comment, include: [{ model: User, attributes: commenter }] }] })]:
    one joined query; every post with its author and its comments, every
    comment with its author. *)
Definition Post_findAll_include (author commenter : list string) : M (list json) :=
  query ;;
  let* d := get_db in
  ret (map (fun p =>
              JObj (Post.toJSON p
                    ++ [("User", include_User author d (Post.UserId p));
                        ("Comments", include_Comments commenter d (Post.id p))]))
           (rows (Posts d))).

(** [User.findByPk(key, { include: [{ model: Post, include: [{ model:
    Comment, include: [{ model: User, attributes }] }] }] })]: the user
    and the serialised [Posts] of the instance. *)
Definition User_findByPk_include (key : json) (attrs : list string)
    : M (option (User.t * json)) :=
  let* found := User_findByPk key in
  match found with
  | None => ret None
  | Some u =>
      let* d := get_db in
      ret (Some (u, include_Posts attrs d (User.id u)))
  end.

(** [sequelize.sync({ force })]: with [force], every table is dropped
    and created again; without it, existing tables are kept. *)
Definition sync (force : bool) : M unit :=
  query ;;
  if force then put_db empty_db else ret tt.

(** ** [loadSequelize] *)
Definition loadSequelize : M unit :=
  try_catch
    (sync true)
    (fun _ => throw "Impossible de se connecter à la base de données").

End Sequelize.

(* ================================================================= *)
(** * The application file *)

(** [req.user], set by the middleware. *)
Record ReqUser : Type := { id : json }.

Record Request : Type := {
  params : list (string * json);
  body : list (string * json);
  cookies : list (string * json);
  user : option ReqUser
}.

Definition set_user (u : ReqUser) (req : Request) : Request :=
  {| params := params req;
     body := body req;
     cookies := cookies req;
     user := Some u |}.

Inductive CookieOp : Type :=
| SetCookie (name value : string) (httpOnly secure : bool)
| ClearCookie (name : string).

Record Response : Type := {
  status : Z;
  payload : json;
  cookieOps : list CookieOp
}.

(** [res.status(code).json(value)]. *)
Definition status_json (code : Z) (value : json) : Response :=
  {| status := code; payload := value; cookieOps := [] |}.

(** [res.json(value)]: the status keeps its default. *)
Definition send_json (value : json) : Response := status_json 200 value.

Definition message (text : string) : json := JObj [("message", JStr text)].

Definition JWT_SECRET : string := "Non_non_non_tu_ne_rentrera_pas_comme_ça".

(** The routes that [main] registers. *)
Inductive Route : Type :=
| GET_users
| POST_register
| POST_login
| POST_logout
| POST_post
| POST_posts_comments
| GET_posts
| GET_users_posts
| DELETE_posts
| DELETE_comments.

Section App.
Context {platform : Platform}.

(** [req.user.id]; a [TypeError] when [req.user] is not set. *)
Definition req_user_id (req : Request) : M json :=
  match user req with
  | Some u => ret (id u)
  | None => throw "TypeError: Cannot read properties of undefined"
  end.

(** ** The authentication middleware *)

(** [next] is the rest of the route.  It is an asynchronous handler, so
    nothing it throws reaches the [catch] of the middleware: only
    [jwt.verify] does. *)
Definition isLoggedInJWT (req : Request) (next : Request -> M Response) : M Response :=
  let token := prop "token" (cookies req) in
  if negb (truthy token) then
    ret (status_json 401 (message "Accès refusé. Veuillez vous connecter."))
  else
    let* t := get_now in
    match jwt_verify token JWT_SECRET t with
    | Some decoded =>
        next (set_user {| id := member "userId" decoded |} req)
    | None =>
        ret (status_json 403 (message "Token invalide ou expiré."))
    end.

(** ** Public routes *)

(** [GET /users].  There is no [try]: a rejected query leaves the
    handler as an unhandled rejection. *)
Definition get_users (req : Request) : M Response :=
  let* users := User_findAll in
  ret (send_json (JArr (map (fun u => JObj (User.toJSON u)) users))).

(** [POST /register]. *)
Definition post_register (req : Request) : M Response :=
  let email := prop "email" (body req) in
  let password := prop "password" (body req) in
  let verifiedPassword := prop "verifiedPassword" (body req) in
  if negb (truthy email) || negb (truthy password) || negb (truthy verifiedPassword) then
    ret (status_json 400
           (message "Email, mot de passe et la vérification du mot de passe sont requis"))
  else if strict_neq password verifiedPassword then
    ret (status_json 400 (message "Mot de passe ne correspond pas"))
  else
    try_catch
      (let saltRounds := 10 in
       let* hashedPassword := await "bcrypt" (bcrypt_hash password saltRounds) in
       let* newUser :=
         User_create [("email", email); ("password", JStr hashedPassword)] in
       ret (status_json 201
              (JObj [("message", JStr "Utilisateur enregistrer avec succés");
                     ("userId", JNum (User.id newUser))])))
      (fun error =>
         ret (status_json 500
                (JObj [("message", JStr "Erreur lors de la création de l utilisateur");
                       ("error", JStr error)]))).

(** [POST /login]. *)
Definition post_login (req : Request) : M Response :=
  let email := prop "email" (body req) in
  let password := prop "password" (body req) in
  if negb (truthy email) || negb (truthy password) then
    ret (status_json 400 (message "Email et mot de passe sont requis"))
  else
    try_catch
      (let* found := User_findOne_where_email email in
       match found with
       | None => ret (status_json 401 (message "Email ou mot de passe invalide"))
       | Some user =>
           let* isMatch :=
             await "bcrypt"
               (bcrypt_compare password (json_of_string (User.password user))) in
           if negb isMatch then
             ret (status_json 401 (message "Email ou mot de passe invalide"))
           else
             let* t := get_now in
             let token :=
               jwt_sign (JObj [("userId", JNum (User.id user))]) JWT_SECRET
                 (12 * 3600) t in
             ret {| status := 200;
                    payload := message "connexion avec succés";
                    cookieOps :=
                      [SetCookie "token" token true
                         (strict_eq NODE_ENV (JStr "production"))] |}
       end)
      (fun error =>
         ret (status_json 500
                (JObj [("message", JStr "Erreur de connexion");
                       ("error", JStr error)]))).

(** [POST /logout]. *)
Definition post_logout (req : Request) : M Response :=
  ret {| status := 200;
         payload := message "Deconnexion réussi";
         cookieOps := [ClearCookie "token"] |}.

(** [GET /posts]. *)
Definition get_posts (req : Request) : M Response :=
  try_catch
    (let* posts := Post_findAll_include ["id"; "email"] ["id"; "email"] in
     ret (send_json (JArr posts)))
    (fun error =>
       ret (status_json 500 (message "Erreur lors de la récupération des posts"))).

(** [GET /users/:userId/posts]. *)
Definition get_users_posts (req : Request) : M Response :=
  let userId := prop "userId" (params req) in
  try_catch
    (let* found := User_findByPk_include userId ["id"; "email"] in
     match found with
     | None => ret (status_json 404 (message "Utilisateur non trouvé"))
     | Some (user, Posts) => ret (send_json Posts)
     end)
    (fun error =>
       ret (status_json 500
              (message "Erreur lors de la récupération des posts de l'utilisateur"))).

(** ** Protected routes: the handlers behind the middleware *)

(** [POST /post]. *)
Definition post_post (req : Request) : M Response :=
  let newPostData := body req in
  try_catch
    (let* uid := req_user_id req in
     let* newPost :=
       Post_create [("title", prop "title" newPostData);
                    ("content", prop "content" newPostData);
                    ("UserId", uid)] in
     ret (send_json (JObj (dataValues newPost))))
    (fun error =>
       ret (status_json 500
              (JObj [("error", JStr "Erreur lors de la création du post")]))).

(** [POST /posts/:postId/comments]. *)
Definition post_posts_comments (req : Request) : M Response :=
  let postId := prop "postId" (params req) in
  let content := prop "content" (body req) in
  try_catch
    (let* post := Post_findByPk postId in
     match post with
     | None => ret (status_json 404 (message "Post non trouvé"))
     | Some _ =>
         let* uid := req_user_id req in
         let* newComment :=
           Comment_create [("content", content);
                           ("PostId", postId);
                           ("UserId", uid)] in
         ret (status_json 201 (JObj (dataValues newComment)))
     end)
    (fun error =>
       ret (status_json 500 (message "Erreur lors de la création du commentaire"))).

(** [DELETE /posts/:postId]. *)
Definition delete_posts (req : Request) : M Response :=
  let postId := prop "postId" (body req) in
  try_catch
    (let* found := Post_findByPk postId in
     match found with
     | None => ret (status_json 404 (message "Post non trouvé"))
     | Some post =>
         let* uid := req_user_id req in
         if strict_neq (json_of_key (Post.UserId post)) uid then
           ret (status_json 403 (message "Action interdite"))
         else
           Post_destroy post ;;
           ret (send_json (message "Post supprimé avec succès"))
     end)
    (fun error =>
       ret (status_json 500 (message "Erreur lors de la suppression du post"))).

(** [DELETE /comments/:commentId]. *)
Definition delete_comments (req : Request) : M Response :=
  let commentId := prop "commentId" (params req) in
  try_catch
    (let* found := Comment_findByPk commentId in
     match found with
     | None => ret (status_json 404 (message "Commentaire non trouvé"))
     | Some comment =>
         let* uid := req_user_id req in
         if strict_neq (json_of_key (Comment.UserId comment)) uid then
           ret (status_json 403 (message "Action interdite"))
         else
           Comment_destroy comment ;;
           ret (send_json (message "Commentaire supprimé avec succès"))
     end)
    (fun error =>
       ret (status_json 500 (message "Erreur lors de la suppression du commentaire"))).

(** ** The route table *)

(** The handler of a route, as [main] registers it: behind
    [isLoggedInJWT] or not. *)
Definition app (r : Route) (req : Request) : M Response :=
  match r with
  | GET_users => get_users req
  | POST_register => post_register req
  | POST_login => post_login req
  | POST_logout => post_logout req
  | POST_post => isLoggedInJWT req post_post
  | POST_posts_comments => isLoggedInJWT req post_posts_comments
  | GET_posts => get_posts req
  | GET_users_posts => get_users_posts req
  | DELETE_posts => isLoggedInJWT req delete_posts
  | DELETE_comments => isLoggedInJWT req delete_comments
  end.

(** The route handler behind the middleware, for the routes that have
    one. *)
Definition protected_handler (r : Route) : option (Request -> M Response) :=
  match r with
  | POST_post => Some post_post
  | POST_posts_comments => Some post_posts_comments
  | DELETE_posts => Some delete_posts
  | DELETE_comments => Some delete_comments
  | _ => None
  end.

(** [main] up to [app.listen]: whether the server ends up listening. *)
Definition main : M bool :=
  try_catch
    (loadSequelize ;; ret true)
    (fun error => ret false).

End App.

(** ** Names for the statements *)

(** What a read leaves as it was: the store and the clock. *)
Definition same_store (w w' : World) : Prop :=
  db w' = db w /\ now w' = now w.

(** The world after one round trip to the database server. *)
Definition served (w : World) : World :=
  {| db := db w; faults := tl (faults w); now := now w |}.

Definition with_params (ps : list (string * json)) (req : Request) : Request :=
  {| params := ps;
     body := body req;
     cookies := cookies req;
     user := user req |}.

(** The answers of the middleware and of the handlers, by name. *)
Definition unauthorized : Response :=
  status_json 401 (message "Accès refusé. Veuillez vous connecter.").

Definition forbidden_token : Response :=
  status_json 403 (message "Token invalide ou expiré.").

Definition forbidden_action : Response :=
  status_json 403 (message "Action interdite").


(** An embedded author as [attributes: ["id", "email"]] leaves it: absent,
    or an object with exactly these two keys. *)
Definition author_projected (v : json) : Prop :=
  v = JNull \/ exists fields, v = JObj fields /\ keys fields = ["id"; "email"].

(** The row that a registration inserts. *)
Definition registered (d : Database) (t : Z) (email password : string) : User.t :=
  {| User.id := nextId (Users d);
     User.username := None;
     User.email := Some email;
     User.password := Some password;
     User.createdAt := t;
     User.updatedAt := t |}.

(** The store after a registration. *)
Definition with_user (u : User.t) (d : Database) : Database :=
  {| Users := insert_row u (Users d); Posts := Posts d; Comments := Comments d |}.

(** The row that a comment on a post inserts, and the store after it. *)
Definition commented (d : Database) (t : Z) (content : option string)
    (userId postId : Z) : Comment.t :=
  {| Comment.id := nextId (Comments d);
     Comment.content := content;
     Comment.createdAt := t;
     Comment.updatedAt := t;
     Comment.UserId := Some userId;
     Comment.PostId := Some postId |}.

(** The comment row that an accepted insert stores, its references as the
    engine has cast them. *)
Definition stored_comment (d : Database) (t : Z) (content : option string)
    (userId postId : option Z) : Comment.t :=
  {| Comment.id := nextId (Comments d);
     Comment.content := content;
     Comment.createdAt := t;
     Comment.updatedAt := t;
     Comment.UserId := userId;
     Comment.PostId := postId |}.

(** No row was added, removed or changed. *)
Definition same_rows (d d' : Database) : Prop :=
  rows (Users d') = rows (Users d)
  /\ rows (Posts d') = rows (Posts d)
  /\ rows (Comments d') = rows (Comments d).

Definition with_comment (c : Comment.t) (d : Database) : Database :=
  {| Users := Users d; Posts := Posts d; Comments := insert_row c (Comments d) |}.

(** The routes the specification calls mutating. *)
Definition mutating (r : Route) : bool :=
  match r with
  | POST_post | POST_posts_comments | DELETE_posts | DELETE_comments => true
  | _ => false
  end.

(** ** What one request can do to the store *)

Definition with_post (p : Post.t) (d : Database) : Database :=
  {| Users := Users d; Posts := insert_row p (Posts d); Comments := Comments d |}.

(** The store without the post [k]: the row is gone, and the comments that
    referenced it have lost the reference. *)
Definition without_post (k : Z) (d : Database) : Database :=
  {| Users := Users d;
     Posts := set_rows (filter (fun q => negb (Post.id q =? k)) (rows (Posts d)))
                (Posts d);
     Comments := set_rows (map (orphan k) (rows (Comments d))) (Comments d) |}.

Definition without_comment (k : Z) (d : Database) : Database :=
  {| Users := Users d;
     Posts := Posts d;
     Comments := set_rows (filter (fun q => negb (Comment.id q =? k))
                             (rows (Comments d)))
                   (Comments d) |}.

Definition user_ids (d : Database) : list Z := map User.id (rows (Users d)).
Definition post_ids (d : Database) : list Z := map Post.id (rows (Posts d)).
Definition comment_ids (d : Database) : list Z := map Comment.id (rows (Comments d)).

(** A foreign key is [NULL] or the id of a row of the referenced table. *)
Definition refers (fk : option Z) (ids : list Z) : Prop :=
  match fk with
  | None => True
  | Some k => In k ids
  end.

(** The write of a route, when it makes one. *)
Definition written (r : Route) (d d' : Database) : Prop :=
  match r with
  | POST_register =>
      exists u, User.id u = nextId (Users d) /\ d' = with_user u d
  | POST_post =>
      exists p, Post.id p = nextId (Posts d)
                /\ refers (Post.UserId p) (user_ids d)
                /\ d' = with_post p d
  | POST_posts_comments =>
      exists c, Comment.id c = nextId (Comments d)
                /\ refers (Comment.UserId c) (user_ids d)
                /\ refers (Comment.PostId c) (post_ids d)
                /\ d' = with_comment c d
  | DELETE_posts =>
      exists p, In p (rows (Posts d)) /\ d' = without_post (Post.id p) d
  | DELETE_comments =>
      exists c, In c (rows (Comments d)) /\ d' = without_comment (Comment.id c) d
  | _ => False
  end.

(** The writes a route can make: none, or its own. *)
Definition footprint (r : Route) (d d' : Database) : Prop :=
  d' = d \/ written r d d'.

(** The status with which a route answers when all went well. *)
Definition success_status (r : Route) : Z :=
  match r with
  | POST_register | POST_posts_comments => 201
  | _ => 200
  end.

(** Keys are distinct and below the counter of their table, and every
    foreign key resolves. *)
Definition consistent (d : Database) : Prop :=
  (Forall (fun k => k < nextId (Users d)) (user_ids d) /\ NoDup (user_ids d))
  /\ (Forall (fun k => k < nextId (Posts d)) (post_ids d) /\ NoDup (post_ids d))
  /\ (Forall (fun k => k < nextId (Comments d)) (comment_ids d)
      /\ NoDup (comment_ids d))
  /\ Forall (fun p => refers (Post.UserId p) (user_ids d)) (rows (Posts d))
  /\ Forall (fun c => refers (Comment.UserId c) (user_ids d)
                      /\ refers (Comment.PostId c) (post_ids d))
       (rows (Comments d)).

(** The outcome of a handler: the store is as it was, or the handler has
    answered with the success status of its route and has made the write
    of its route. *)
Definition outcome (r : Route) (w : World) (res : Result Response) (w' : World) : Prop :=
  db w' = db w
  \/ exists resp, res = Ok resp
                  /\ status resp = success_status r
                  /\ written r (db w) (db w').

(** The row that [POST /post] inserts. *)
Definition posted (d : Database) (t : Z) (title content : option string)
    (userId : option Z) : Post.t :=
  {| Post.id := nextId (Posts d);
     Post.title := title;
     Post.content := content;
     Post.createdAt := t;
     Post.updatedAt := t;
     Post.UserId := userId |}.

(** A comment without its reference to a post. *)
Definition detach (c : Comment.t) : Comment.t :=
  {| Comment.id := Comment.id c;
     Comment.content := Comment.content c;
     Comment.createdAt := Comment.createdAt c;
     Comment.updatedAt := Comment.updatedAt c;
     Comment.UserId := Comment.UserId c;
     Comment.PostId := None |}.

(** The only change a stored comment can undergo. *)
Definition detached_or_same (c c' : Comment.t) : Prop :=
  c' = c \/ c' = detach c.

(** A later store [d'] seen from an earlier one [d]: the counters have not
    gone back, and a post or a comment of [d'] with a key that [d] had given
    out is a row of [d], the comment possibly detached. *)
Definition descends (d d' : Database) : Prop :=
  nextId (Posts d) <= nextId (Posts d')
  /\ nextId (Comments d) <= nextId (Comments d')
  /\ (forall q, In q (rows (Posts d')) -> Post.id q < nextId (Posts d) ->
               In q (rows (Posts d)))
  /\ (forall c', In c' (rows (Comments d')) ->
                Comment.id c' < nextId (Comments d) ->
                exists c, In c (rows (Comments d)) /\ detached_or_same c c').

(** A handler that answers, whatever the world is. *)
Definition answers (m : M Response) : Prop :=
  forall w, exists resp w', m w = (Ok resp, w').

(** ** The life of the server after boot *)

(** Between two requests the environment moves the clock and decides what
    the next round trips to the database server will do. *)
Inductive Event : Type :=
| Incoming (r : Route) (req : Request)
| Environment (t : Z) (script : list bool).

(** A computation that leaves the store and the clock as they were,
    whatever it answers. *)
Definition reads {A : Type} (m : M A) : Prop :=
  forall w r w', m w = (r, w') -> same_store w w'.

Section Life.
Context {platform : Platform}.

(** The answer to a login that succeeds for [user] at time [t]. *)
Definition logged_in (user : User.t) (t : Z) : Response :=
  {| status := 200;
     payload := message "connexion avec succés";
     cookieOps :=
       [SetCookie "token"
          (jwt_sign (JObj [("userId", JNum (User.id user))]) JWT_SECRET (12 * 3600) t)
          true
          (strict_eq NODE_ENV (JStr "production"))] |}.

Definition step (w : World) (e : Event) : World :=
  match e with
  | Incoming r req => snd (app r req w)
  | Environment t script => {| db := db w; faults := script; now := t |}
  end.

(** The world after a sequence of events. *)
Definition run (events : list Event) (w : World) : World :=
  fold_left step events w.

End Life.

(* ================================================================= *)
(** * A reference platform, for running the handlers on examples *)

Module Reference.

Fixpoint parse_digits (s : string) (acc : Z) : option Z :=
  match s with
  | EmptyString => Some acc
  | String c rest =>
      let n := Z.of_nat (Ascii.nat_of_ascii c) - 48 in
      if (0 <=? n) && (n <=? 9) then parse_digits rest (10 * acc + n) else None
  end.

Definition decimal (s : string) : option Z :=
  match s with
  | EmptyString => None
  | _ => parse_digits s 0
  end.

Definition hash (data : json) (rounds : Z) : option string :=
  match data with
  | JStr s => Some ("$2b$" ++ s)
  | _ => None
  end.

Definition compare (data stored : json) : option bool :=
  match data, stored with
  | JStr s, JStr h => Some (h =? "$2b$" ++ s)%string
  | _, _ => None
  end.

(** Tokens are the names of two principals: user 1 and user 2. *)
Definition sign (claims : json) (secret : string) (expiresIn t : Z) : string :=
  match member "userId" claims with
  | JNum 1 => "alice"
  | JNum 2 => "bob"
  | _ => "nobody"
  end.

Definition verify (token : json) (secret : string) (t : Z) : option json :=
  match token with
  | JStr "alice" => Some (JObj [("userId", JNum 1)])
  | JStr "bob" => Some (JObj [("userId", JNum 2)])
  | _ => None
  end.

Definition to_string (v : json) : option string :=
  match v with
  | JStr s => Some s
  | _ => None
  end.

Definition to_integer (v : json) : option Z :=
  match v with
  | JNum n => Some n
  | JStr s => decimal s
  | _ => None
  end.

#[export] Instance platform : Platform := {|
  bcrypt_hash := hash;
  bcrypt_compare := compare;
  jwt_sign := sign;
  jwt_verify := verify;
  toSTRING := to_string;
  toINTEGER := to_integer;
  sql_eq := String.eqb;
  NODE_ENV := JUndefined
|}.

(** The same platform, with tokens that verify to their claims and the
    dates of issue and of expiry beside them. *)
Definition verify_dated (token : json) (secret : string) (t : Z) : option json :=
  match verify token secret t with
  | Some (JObj claims) =>
      Some (JObj (claims ++ [("iat", JNum t); ("exp", JNum (t + 12 * 3600))]))
  | _ => None
  end.

Definition dated : Platform := {|
  bcrypt_hash := hash;
  bcrypt_compare := compare;
  jwt_sign := sign;
  jwt_verify := verify_dated;
  toSTRING := to_string;
  toINTEGER := to_integer;
  sql_eq := String.eqb;
  NODE_ENV := JUndefined
|}.

Definition request (ps bd cs : list (string * json)) : Request :=
  {| params := ps; body := bd; cookies := cs; user := None |}.

Definition world (d : Database) : World :=
  {| db := d; faults := []; now := 1000 |}.

Definition alice : User.t :=
  {| User.id := 1; User.username := None; User.email := Some "a@x.com";
     User.password := Some "$2b$p1"; User.createdAt := 10; User.updatedAt := 10 |}.

Definition bob : User.t :=
  {| User.id := 2; User.username := None; User.email := Some "b@x.com";
     User.password := Some "$2b$p2"; User.createdAt := 20; User.updatedAt := 20 |}.

Definition post1 : Post.t :=
  {| Post.id := 1; Post.title := Some "t"; Post.content := Some "c";
     Post.createdAt := 30; Post.updatedAt := 30; Post.UserId := Some 1 |}.

Definition post2 : Post.t :=
  {| Post.id := 2; Post.title := Some "u"; Post.content := Some "d";
     Post.createdAt := 40; Post.updatedAt := 40; Post.UserId := Some 2 |}.

Definition comment1 : Comment.t :=
  {| Comment.id := 1; Comment.content := Some "hello";
     Comment.createdAt := 50; Comment.updatedAt := 50;
     Comment.UserId := Some 2; Comment.PostId := Some 1 |}.

(** Two users, a post of each, and a comment of the second user on the
    post of the first. *)
Definition blog : Database :=
  {| Users := {| rows := [alice; bob]; nextId := 3 |};
     Posts := {| rows := [post1; post2]; nextId := 3 |};
     Comments := {| rows := [comment1]; nextId := 2 |} |}.

(** A database recreated since the second user logged in: the first user
    has registered again and has written a post. *)
Definition recreated : Database :=
  {| Users := {| rows := [alice]; nextId := 2 |};
     Posts := {| rows := [post1]; nextId := 2 |};
     Comments := empty_table |}.

(** Three requests on the reference database: the first user comments on
    her post, the second user deletes his post, then writes a new one. *)
Definition afternoon : list Event :=
  [ Incoming POST_posts_comments
      (request [("postId", JStr "1")] [("content", JStr "hi")]
         [("token", JStr "alice")]);
    Incoming DELETE_posts
      (request [("postId", JStr "2")] [("postId", JNum 2)]
         [("token", JStr "bob")]);
    Environment 2000 [];
    Incoming POST_post
      (request [] [("title", JStr "again")] [("token", JStr "bob")]) ].

(** A world in which the next round trip to the server fails. *)
Definition failing (d : Database) : World :=
  {| db := d; faults := [true]; now := 1000 |}.

End Reference.

(* ================================================================= *)
(** * Facts about values and about the monad *)

Lemma strict_eq_true (a b : json) : strict_eq a b = true -> a = b.
Proof.
  destruct a, b; simpl; try discriminate; intros E; try reflexivity.
  - apply Bool.eqb_prop in E. now subst.
  - apply Z.eqb_eq in E. now subst.
  - apply String.eqb_eq in E. now subst.
Qed.

Lemma strict_neq_of_neq (a b : json) : a <> b -> strict_neq a b = true.
Proof.
  intros N. unfold strict_neq.
  destruct (strict_eq a b) eqn:E; [ | reflexivity ].
  apply strict_eq_true in E. contradiction.
Qed.

Lemma truthy_undefined_or_empty (v : json) :
  v = JUndefined \/ v = JStr "" -> truthy v = false.
Proof. intros [-> | ->]; reflexivity. Qed.

Lemma same_store_refl (w : World) : same_store w w.
Proof. split; reflexivity. Qed.

Lemma same_store_trans (w1 w2 w3 : World) :
  same_store w1 w2 -> same_store w2 w3 -> same_store w1 w3.
Proof. intros [A B] [C D]. split; congruence. Qed.

Lemma query_same_store (w w' : World) (r : Result unit) :
  query w = (r, w') -> same_store w w'.
Proof.
  unfold query. destruct (faults w) as [ | [ | ] rest ]; intros E;
    inversion E; subst; split; reflexivity.
Qed.

Lemma query_ok (w : World) :
  hd false (faults w) = false ->
  query w = (Ok tt, served w).
Proof.
  unfold query, served. destruct w as [d [ | [ | ] rest ] t ]; simpl; intros E;
    try discriminate; reflexivity.
Qed.

Lemma query_fault (w : World) :
  hd false (faults w) = true ->
  query w = (Throw "SequelizeConnectionError", served w).
Proof.
  unfold query, served. destruct w as [d [ | [ | ] rest ] t ]; simpl; intros E;
    try discriminate; reflexivity.
Qed.

Lemma served_same_store (w : World) : same_store w (served w).
Proof. split; reflexivity. Qed.

Ltac monad := unfold bind, ret, throw, try_catch, await, get_db, get_now, put_db.

(* ================================================================= *)
(** * Registration: field validation *)

Section Register.
Context {platform : Platform}.

(** C5.  A registration in which [email], [password] or
    [verifiedPassword] is missing, or in which [password] differs from
    [verifiedPassword], is answered with status 400, and the world is
    left as it was: no row is created and the database is not even
    contacted. *)
Theorem register_invalid_fields (req : Request) (w : World) :
  prop "email" (body req) = JUndefined
  \/ prop "password" (body req) = JUndefined
  \/ prop "verifiedPassword" (body req) = JUndefined
  \/ prop "password" (body req) <> prop "verifiedPassword" (body req) ->
  exists r, app POST_register req w = (Ok r, w) /\ status r = 400.
Proof.
  intros Hbad. unfold app, post_register.
  destruct (negb (truthy (prop "email" (body req)))
            || negb (truthy (prop "password" (body req)))
            || negb (truthy (prop "verifiedPassword" (body req)))) eqn:Missing.
  - eexists. split; reflexivity.
  - destruct Hbad as [E | [E | [E | N]]];
      try (rewrite E in Missing; simpl in Missing;
           rewrite ?orb_true_r in Missing; discriminate).
    rewrite (strict_neq_of_neq _ _ N). eexists. split; reflexivity.
Qed.

End Register.

(** A registration whose two passwords differ, on the reference platform. *)
Lemma register_invalid_fields_witness :
  let req := Reference.request []
               [("email", JStr "a@x.com"); ("password", JStr "p1");
                ("verifiedPassword", JStr "p2")] [] in
  let w := Reference.world Reference.blog in
  prop "password" (body req) <> prop "verifiedPassword" (body req)
  /\ exists r, app (platform := Reference.platform) POST_register req w = (Ok r, w)
               /\ status r = 400.
Proof.
  assert (N : JStr "p1" <> JStr "p2") by discriminate.
  split; [ exact N | ].
  apply (register_invalid_fields (platform := Reference.platform)).
  right; right; right. exact N.
Defined.

(* ================================================================= *)
(** * The authentication middleware *)

Section Middleware.
Context {platform : Platform}.

Lemma app_protected (r : Route) (req : Request) :
  mutating r = true ->
  exists handler, protected_handler r = Some handler
                  /\ app r req = isLoggedInJWT req handler.
Proof.
  destruct r; simpl; try discriminate; intros _; eexists; split; reflexivity.
Qed.

Lemma isLoggedInJWT_no_token (req : Request) (next : Request -> M Response) (w : World) :
  truthy (prop "token" (cookies req)) = false ->
  isLoggedInJWT req next w = (Ok unauthorized, w).
Proof. intros E. unfold isLoggedInJWT. rewrite E. reflexivity. Qed.

Lemma isLoggedInJWT_bad_token (req : Request) (next : Request -> M Response) (w : World) :
  truthy (prop "token" (cookies req)) = true ->
  jwt_verify (prop "token" (cookies req)) JWT_SECRET (now w) = None ->
  isLoggedInJWT req next w = (Ok forbidden_token, w).
Proof.
  intros E V. unfold isLoggedInJWT. rewrite E. simpl. monad. rewrite V. reflexivity.
Qed.

Lemma isLoggedInJWT_good_token (req : Request) (next : Request -> M Response)
    (w : World) (decoded : json) :
  truthy (prop "token" (cookies req)) = true ->
  jwt_verify (prop "token" (cookies req)) JWT_SECRET (now w) = Some decoded ->
  isLoggedInJWT req next w
  = next (set_user {| id := member "userId" decoded |} req) w.
Proof.
  intros E V. unfold isLoggedInJWT. rewrite E. simpl. monad. rewrite V. reflexivity.
Qed.

(** C2.  On a mutating route: a request with no [token] cookie (or with
    an empty one, which is no token either) is answered 401; a request
    whose token fails verification is answered 403.  In both cases the
    answer is the middleware's, whatever the route handler is, and the
    world is left as it was: the route handler does not run. *)
Theorem mutating_route_rejects_bad_token (r : Route) (req : Request) (w : World) :
  mutating r = true ->
  let token := prop "token" (cookies req) in
  (token = JUndefined \/ token = JStr "" ->
     app r req w = (Ok unauthorized, w)
     /\ status unauthorized = 401
     /\ forall next, isLoggedInJWT req next w = (Ok unauthorized, w))
  /\ (truthy token = true ->
      jwt_verify token JWT_SECRET (now w) = None ->
        app r req w = (Ok forbidden_token, w)
        /\ status forbidden_token = 403
        /\ forall next, isLoggedInJWT req next w = (Ok forbidden_token, w)).
Proof.
  intros Hm token.
  destruct (app_protected r req Hm) as (handler & _ & ->).
  split.
  - intros Habsent. apply truthy_undefined_or_empty in Habsent.
    repeat split; intros; now apply isLoggedInJWT_no_token.
  - intros Ht Hv.
    repeat split; intros; now apply isLoggedInJWT_bad_token.
Qed.

End Middleware.

(** A request without cookie and a request with a forged token, on the
    reference platform. *)
Lemma mutating_route_rejects_bad_token_witness :
  let anonymous := Reference.request [("postId", JStr "1")] [] [] in
  let forged := Reference.request [("postId", JStr "1")] [] [("token", JStr "mallory")] in
  let w := Reference.world Reference.blog in
  (mutating DELETE_posts = true
   /\ prop "token" (cookies anonymous) = JUndefined
   /\ app (platform := Reference.platform) DELETE_posts anonymous w = (Ok unauthorized, w))
  /\ (truthy (prop "token" (cookies forged)) = true
      /\ jwt_verify (Platform := Reference.platform)
           (prop "token" (cookies forged)) JWT_SECRET (now w) = None
      /\ app (platform := Reference.platform) DELETE_posts forged w
         = (Ok forbidden_token, w)).
Proof.
  intros anonymous forged w.
  pose proof (mutating_route_rejects_bad_token (platform := Reference.platform)
                DELETE_posts anonymous w eq_refl) as [A _].
  pose proof (mutating_route_rejects_bad_token (platform := Reference.platform)
                DELETE_posts forged w eq_refl) as [_ B].
  split.
  - split; [ reflexivity | ]. split; [ reflexivity | ].
    exact (proj1 (A (or_introl eq_refl))).
  - split; [ reflexivity | ]. split; [ reflexivity | ].
    exact (proj1 (B eq_refl eq_refl)).
Defined.

(** A cookie that is present and empty counts as absent: the empty string
    would not pass verification, and it is not verified; the answer is the
    401 of the missing token. *)
Lemma empty_token_cookie_is_unauthorized :
  let req := Reference.request [("postId", JStr "1")] [("postId", JNum 1)]
               [("token", JStr "")] in
  let w := Reference.world Reference.blog in
  mutating DELETE_posts = true
  /\ prop "token" (cookies req) = JStr ""
  /\ jwt_verify (Platform := Reference.platform)
       (prop "token" (cookies req)) JWT_SECRET (now w) = None
  /\ (exists r, app (platform := Reference.platform) DELETE_posts req w = (Ok r, w)
                /\ status r = 401 /\ status r <> 403).
Proof.
  repeat split. eexists. split; [ reflexivity | ]. split; [ reflexivity | ].
  simpl. discriminate.
Qed.

(* ================================================================= *)
(** * Boot *)

Section Boot.

Lemma sync_without_force_keeps_rows (w w' : World) (r : Result unit) :
  sync false w = (r, w') -> db w' = db w.
Proof.
  unfold sync. monad. destruct (query w) as [[[] | e] w1] eqn:Q; intros E;
    inversion E; subst; apply (query_same_store _ _ _ Q).
Qed.

(** C9.  [main] synchronises the schema with [force] before anything
    else.  Whatever the database held, when the boot succeeds the three
    tables are empty (and their counters are reset); the boot succeeds
    whenever the server answers the synchronisation; when it does not,
    the application does not start. *)
Theorem boot_discards_all_rows (w : World) :
  (forall w', main w = (Ok true, w') ->
     db w' = empty_db
     /\ rows (Users (db w')) = []
     /\ rows (Posts (db w')) = []
     /\ rows (Comments (db w')) = [])
  /\ (hd false (faults w) = false -> exists w', main w = (Ok true, w'))
  /\ (hd false (faults w) = true -> exists w', main w = (Ok false, w')).
Proof.
  unfold main, loadSequelize, sync. monad.
  split; [ | split ].
  - intros w'.
    destruct (hd false (faults w)) eqn:F.
    + rewrite (query_fault _ F). simpl. discriminate.
    + rewrite (query_ok _ F). simpl. intros E. inversion E; subst. simpl.
      repeat split.
  - intros F. rewrite (query_ok _ F). simpl. eexists. reflexivity.
  - intros F. rewrite (query_fault _ F). simpl. eexists. reflexivity.
Qed.

End Boot.

(** A boot over a populated database. *)
Lemma boot_discards_all_rows_witness :
  let w := Reference.world Reference.blog in
  let w' := Reference.world empty_db in
  main w = (Ok true, w')
  /\ rows (Users (db w)) <> []
  /\ rows (Users (db w')) = []
  /\ rows (Posts (db w')) = []
  /\ rows (Comments (db w')) = [].
Proof.
  intros w w'.
  pose proof (boot_discards_all_rows w) as [A _].
  assert (E : main w = (Ok true, w')) by reflexivity.
  destruct (A w' E) as (_ & U & P & C).
  split; [ exact E | ]. split; [ discriminate | ]. repeat split; assumption.
Defined.

(* ================================================================= *)
(** * Lookups by primary key *)

Section Lookups.
Context {platform : Platform}.

Lemma Post_find_some (k : Z) (d : Database) (p : Post.t) :
  Post_find k d = Some p -> In p (rows (Posts d)) /\ Post.id p = k.
Proof.
  unfold Post_find. intros F. apply find_some in F as [I E].
  apply Z.eqb_eq in E. auto.
Qed.

Lemma Comment_find_some (k : Z) (d : Database) (c : Comment.t) :
  Comment_find k d = Some c -> In c (rows (Comments d)) /\ Comment.id c = k.
Proof.
  unfold Comment_find. intros F. apply find_some in F as [I E].
  apply Z.eqb_eq in E. auto.
Qed.

(** The shape shared by the three [findByPk]: nothing for an absent key,
    else one round trip, the cast of the key, and the search. *)
Lemma findByPk_shape {A : Type} (search : Z -> Database -> option A)
    (key : json) (w w1 : World) (found : option A) :
  match key with
  | JUndefined | JNull => ret None
  | _ =>
      (query ;;
       let* k := await "SequelizeDatabaseError" (toINTEGER key) in
       let* d := get_db in
       ret (search k d))%handler
  end w = (Ok found, w1) ->
  (found = None /\ w1 = w /\ column_value toINTEGER key = Some None)
  \/ (exists k, column_value toINTEGER key = Some (Some k)
                /\ found = search k (db w)
                /\ hd false (faults w) = false
                /\ w1 = served w).
Proof.
  intros E.
  assert (D : (key = JUndefined \/ key = JNull)
              \/ (column_value toINTEGER key = option_map Some (toINTEGER key)
                  /\ (query ;;
                      let* k := await "SequelizeDatabaseError" (toINTEGER key) in
                      let* d := get_db in
                      ret (search k d))%handler w = (Ok found, w1))).
  { destruct key; auto; right; split; try reflexivity; exact E. }
  destruct D as [[-> | ->] | [C R]].
  - left. inversion E. auto.
  - left. inversion E. auto.
  - right. clear E. revert R. monad.
    destruct (hd false (faults w)) eqn:F.
    + rewrite (query_fault _ F). discriminate.
    + rewrite (query_ok _ F).
      destruct (toINTEGER key) as [k | ]; [ | discriminate ].
      intros R. inversion R; subst. exists k. rewrite C. auto.
Qed.

(** A lookup that finds a row has asked the server once and has left the
    store as it was; the row is the one whose [id] is the cast of the key. *)
Lemma Post_findByPk_some (key : json) (w w1 : World) (p : Post.t) :
  Post_findByPk key w = (Ok (Some p), w1) ->
  column_value toINTEGER key = Some (Some (Post.id p))
  /\ Post_find (Post.id p) (db w) = Some p
  /\ hd false (faults w) = false
  /\ w1 = served w.
Proof.
  intros E. apply (findByPk_shape Post_find) in E.
  destruct E as [(N & _) | (k & C & F & H & ->)]; [ discriminate | ].
  symmetry in F. destruct (Post_find_some _ _ _ F) as [_ <-]. auto.
Qed.

Lemma Post_findByPk_same_store (key : json) (w w1 : World) (found : option Post.t) :
  Post_findByPk key w = (Ok found, w1) -> same_store w w1.
Proof.
  intros E. apply (findByPk_shape Post_find) in E.
  destruct E as [(_ & -> & _) | (k & _ & _ & _ & ->)];
    [ apply same_store_refl | apply served_same_store ].
Qed.

Lemma Comment_findByPk_some (key : json) (w w1 : World) (c : Comment.t) :
  Comment_findByPk key w = (Ok (Some c), w1) ->
  column_value toINTEGER key = Some (Some (Comment.id c))
  /\ Comment_find (Comment.id c) (db w) = Some c
  /\ hd false (faults w) = false
  /\ w1 = served w.
Proof.
  intros E. apply (findByPk_shape Comment_find) in E.
  destruct E as [(N & _) | (k & C & F & H & ->)]; [ discriminate | ].
  symmetry in F. destruct (Comment_find_some _ _ _ F) as [_ <-]. auto.
Qed.

Lemma Comment_findByPk_same_store (key : json) (w w1 : World)
    (found : option Comment.t) :
  Comment_findByPk key w = (Ok found, w1) -> same_store w w1.
Proof.
  intros E. apply (findByPk_shape Comment_find) in E.
  destruct E as [(_ & -> & _) | (k & _ & _ & _ & ->)];
    [ apply same_store_refl | apply served_same_store ].
Qed.

(** A lookup, answered or not, leaves the store as it was. *)
Lemma Post_findByPk_reads (key : json) (w w1 : World) (r : Result (option Post.t)) :
  Post_findByPk key w = (r, w1) -> same_store w w1.
Proof.
  unfold Post_findByPk.
  destruct key; monad;
    try (intros E; inversion E; subst; apply same_store_refl);
    (destruct (hd false (faults w)) eqn:F;
     [ rewrite (query_fault _ F); intros E; inversion E; subst;
       apply served_same_store
     | rewrite (query_ok _ F);
       match goal with
       | |- context [toINTEGER ?v] => destruct (toINTEGER v)
       end; intros E; inversion E; subst; apply served_same_store ]).
Qed.

End Lookups.

(* ================================================================= *)
(** * Deletion: ownership *)

Section Delete.
Context {platform : Platform}.

(** C1.  A deletion that carries a valid token is answered 403 when the
    row it targets exists and the [UserId] stored on that row differs from
    the user id of the token; the store is left as it was and the row is
    still in its table: [destroy] is not reached.  Both for
    [DELETE /posts/:postId] and for [DELETE /comments/:commentId]. *)
Theorem delete_by_another_user_is_forbidden
    (req : Request) (w w1 : World) (decoded : json) :
  truthy (prop "token" (cookies req)) = true ->
  jwt_verify (prop "token" (cookies req)) JWT_SECRET (now w) = Some decoded ->
  (forall post,
     Post_findByPk (prop "postId" (body req)) w = (Ok (Some post), w1) ->
     json_of_key (Post.UserId post) <> member "userId" decoded ->
     app DELETE_posts req w = (Ok forbidden_action, w1)
     /\ status forbidden_action = 403
     /\ db w1 = db w
     /\ In post (rows (Posts (db w1))))
  /\ (forall comment,
        Comment_findByPk (prop "commentId" (params req)) w = (Ok (Some comment), w1) ->
        json_of_key (Comment.UserId comment) <> member "userId" decoded ->
        app DELETE_comments req w = (Ok forbidden_action, w1)
        /\ status forbidden_action = 403
        /\ db w1 = db w
        /\ In comment (rows (Comments (db w1)))).
Proof.
  intros Ht Hv. split.
  - intros post Hfind Hdiff.
    destruct (Post_findByPk_some _ _ _ _ Hfind) as (_ & F & _ & Hw).
    split; [ | split; [ reflexivity | ] ].
    + unfold app. rewrite (isLoggedInJWT_good_token _ _ _ _ Ht Hv).
      unfold delete_posts, req_user_id. simpl. monad.
      rewrite Hfind. rewrite (strict_neq_of_neq _ _ Hdiff). reflexivity.
    + subst w1. simpl. split; [ reflexivity | ].
      apply (Post_find_some _ _ _ F).
  - intros comment Hfind Hdiff.
    destruct (Comment_findByPk_some _ _ _ _ Hfind) as (_ & F & _ & Hw).
    split; [ | split; [ reflexivity | ] ].
    + unfold app. rewrite (isLoggedInJWT_good_token _ _ _ _ Ht Hv).
      unfold delete_comments, req_user_id. simpl. monad.
      rewrite Hfind. rewrite (strict_neq_of_neq _ _ Hdiff). reflexivity.
    + subst w1. simpl. split; [ reflexivity | ].
      apply (Comment_find_some _ _ _ F).
Qed.

(** What [DELETE /posts/:postId] does behind the middleware, case by case
    on the lookup of the id found in the body. *)
Lemma delete_posts_cases (req : Request) (uid : json) (w : World) :
  let authenticated := set_user {| id := uid |} req in
  match Post_findByPk (prop "postId" (body req)) w with
  | (Throw _, w1) =>
      delete_posts authenticated w
      = (Ok (status_json 500 (message "Erreur lors de la suppression du post")), w1)
  | (Ok None, w1) =>
      delete_posts authenticated w
      = (Ok (status_json 404 (message "Post non trouvé")), w1)
  | (Ok (Some post), w1) =>
      if strict_neq (json_of_key (Post.UserId post)) uid then
        delete_posts authenticated w = (Ok forbidden_action, w1)
      else
        match Post_destroy post w1 with
        | (Ok _, w2) =>
            delete_posts authenticated w
            = (Ok (send_json (message "Post supprimé avec succès")), w2)
        | (Throw _, w2) =>
            delete_posts authenticated w
            = (Ok (status_json 500 (message "Erreur lors de la suppression du post")), w2)
        end
  end.
Proof.
  unfold delete_posts, req_user_id. simpl. monad.
  destruct (Post_findByPk (prop "postId" (body req)) w) as [[[post | ] | e] w1];
    try reflexivity.
  destruct (strict_neq (json_of_key (Post.UserId post)) uid); [ reflexivity | ].
  destruct (Post_destroy post w1) as [[[] | e] w2]; reflexivity.
Qed.

Lemma Post_destroy_ok (post : Post.t) (w w2 : World) :
  Post_destroy post w = (Ok tt, w2) ->
  rows (Posts (db w2))
  = filter (fun q => negb (Post.id q =? Post.id post)) (rows (Posts (db w)))
  /\ Users (db w2) = Users (db w).
Proof.
  unfold Post_destroy. monad.
  destruct (hd false (faults w)) eqn:F.
  - rewrite (query_fault _ F). discriminate.
  - rewrite (query_ok _ F). simpl. intros E. inversion E; subst. simpl. auto.
Qed.

(** C4.  [DELETE /posts/:postId] takes the post to delete from the
    [postId] field of the body.  Its answer and its effect are the same
    whatever the path parameters are; and when it answers 200, the post
    that has left the table is the one whose [id] is the cast of the
    body's [postId], found, checked to belong to the user of the token,
    and removed. *)
Theorem delete_post_targets_body_postId (req : Request) (w : World) :
  (forall ps, app DELETE_posts (with_params ps req) w = app DELETE_posts req w)
  /\ (forall r w',
        app DELETE_posts req w = (Ok r, w') ->
        status r = 200 ->
        exists decoded post,
          jwt_verify (prop "token" (cookies req)) JWT_SECRET (now w) = Some decoded
          /\ column_value toINTEGER (prop "postId" (body req))
             = Some (Some (Post.id post))
          /\ Post_find (Post.id post) (db w) = Some post
          /\ json_of_key (Post.UserId post) = member "userId" decoded
          /\ rows (Posts (db w'))
             = filter (fun q => negb (Post.id q =? Post.id post))
                 (rows (Posts (db w)))).
Proof.
  split.
  - intros ps. reflexivity.
  - intros r w'. unfold app, isLoggedInJWT. simpl.
    destruct (truthy (prop "token" (cookies req))); simpl;
      [ | intros E; inversion E; subst; discriminate ].
    monad.
    destruct (jwt_verify (prop "token" (cookies req)) JWT_SECRET (now w))
      as [decoded | ]; [ | intros E; inversion E; subst; discriminate ].
    pose proof (delete_posts_cases req (member "userId" decoded) w) as Cases.
    simpl in Cases.
    destruct (Post_findByPk (prop "postId" (body req)) w)
      as [[[post | ] | e] w1] eqn:Hfind;
      try (rewrite Cases; intros E; inversion E; subst; discriminate).
    destruct (strict_neq (json_of_key (Post.UserId post)) (member "userId" decoded))
      eqn:Hown;
      try (rewrite Cases; intros E; inversion E; subst; discriminate).
    destruct (Post_destroy post w1) as [[[] | e] w2] eqn:Hdestroy;
      try (rewrite Cases; intros E; inversion E; subst; discriminate).
    rewrite Cases. intros E _. inversion E; subst.
    destruct (Post_findByPk_some _ _ _ _ Hfind) as (C & F & _ & ->).
    destruct (Post_destroy_ok _ _ _ Hdestroy) as [Hrows _].
    exists decoded, post. repeat split; try assumption.
    unfold strict_neq in Hown. apply negb_false_iff in Hown.
    now apply strict_eq_true.
Qed.

End Delete.

(** The second user tries to delete the post of the first, and the first
    user the comment of the second. *)
Lemma delete_by_another_user_is_forbidden_witness :
  let w := Reference.world Reference.blog in
  let on_post := Reference.request [("postId", JStr "1")] [("postId", JNum 1)]
                   [("token", JStr "bob")] in
  let on_comment := Reference.request [("commentId", JStr "1")] []
                      [("token", JStr "alice")] in
  (app (platform := Reference.platform) DELETE_posts on_post w
   = (Ok forbidden_action, served w)
   /\ In Reference.post1 (rows (Posts (db (served w)))))
  /\ (app (platform := Reference.platform) DELETE_comments on_comment w
      = (Ok forbidden_action, served w)
      /\ In Reference.comment1 (rows (Comments (db (served w))))).
Proof.
  intros w on_post on_comment.
  assert (N : JNum 1 <> JNum 2) by discriminate.
  assert (N' : JNum 2 <> JNum 1) by discriminate.
  split.
  - destruct (delete_by_another_user_is_forbidden (platform := Reference.platform)
                on_post w (served w) (JObj [("userId", JNum 2)]) eq_refl eq_refl)
      as [P _].
    destruct (P Reference.post1 eq_refl N) as (A & _ & _ & B).
    split; assumption.
  - destruct (delete_by_another_user_is_forbidden (platform := Reference.platform)
                on_comment w (served w) (JObj [("userId", JNum 1)]) eq_refl eq_refl)
      as [_ C].
    destruct (C Reference.comment1 eq_refl N') as (A & _ & _ & B).
    split; assumption.
Defined.

(** The second user sends [DELETE /posts/1] with [postId: 2] in the body:
    post 2 is deleted, post 1 stays. *)
Lemma delete_post_targets_body_postId_witness :
  let w := Reference.world Reference.blog in
  let req := Reference.request [("postId", JStr "1")] [("postId", JNum 2)]
               [("token", JStr "bob")] in
  (exists r w',
     app (platform := Reference.platform) DELETE_posts req w = (Ok r, w')
     /\ status r = 200
     /\ rows (Posts (db w')) = [Reference.post1])
  /\ app (platform := Reference.platform) DELETE_posts
       (with_params [("postId", JStr "2")] req) w
     = app (platform := Reference.platform) DELETE_posts req w.
Proof.
  intros w req.
  destruct (delete_post_targets_body_postId (platform := Reference.platform) req w)
    as [Same Target].
  split; [ | apply Same ].
  eexists. eexists.
  assert (E : app (platform := Reference.platform) DELETE_posts req w
              = (Ok (send_json (message "Post supprimé avec succès")),
                 {| db := {| Users := Users Reference.blog;
                             Posts := {| rows := [Reference.post1]; nextId := 3 |};
                             Comments := Comments Reference.blog |};
                    faults := []; now := 1000 |})) by reflexivity.
  split; [ exact E | ]. split; [ reflexivity | ].
  destruct (Target _ _ E eq_refl) as (decoded & post & _ & _ & _ & _ & R).
  reflexivity.
Defined.

(* ================================================================= *)
(** * Registration: two accounts with one email *)

Section Duplicates.
Context {platform : Platform}.

Lemma email_is_not_unique : is_unique UserDef "email" = false.
Proof. reflexivity. Qed.

Lemma truthy_column_value {A : Type} (cast : json -> option A) (v : json) :
  truthy v = true -> column_value cast v = option_map Some (cast v).
Proof. destruct v; simpl; try discriminate; reflexivity. Qed.

(** A registration with valid fields succeeds whenever the password can be
    hashed, the values can be stored and the server answers: whether or
    not the email is already in the table. *)
Lemma register_succeeds (req : Request) (w : World) (hashed e h : string) :
  let email := prop "email" (body req) in
  let password := prop "password" (body req) in
  let verifiedPassword := prop "verifiedPassword" (body req) in
  truthy email = true ->
  truthy password = true ->
  strict_eq password verifiedPassword = true ->
  bcrypt_hash password 10 = Some hashed ->
  toSTRING email = Some e ->
  toSTRING (JStr hashed) = Some h ->
  hd false (faults w) = false ->
  let u := registered (db w) (now w) e h in
  app POST_register req w
  = (Ok (status_json 201
           (JObj [("message", JStr "Utilisateur enregistrer avec succés");
                  ("userId", JNum (User.id u))])),
     {| db := with_user u (db w); faults := tl (faults w); now := now w |}).
Proof.
  intros email password verifiedPassword Te Tp Eq Hh He Hs Hf u.
  assert (Tv : truthy verifiedPassword = true).
  { apply strict_eq_true in Eq. fold verifiedPassword. rewrite <- Eq. exact Tp. }
  unfold app, post_register.
  fold email password verifiedPassword.
  rewrite Te, Tp, Tv. simpl.
  unfold strict_neq. rewrite Eq. simpl.
  unfold User_create, nullable, check_unique. monad.
  rewrite Hh. simpl. rewrite (query_ok _ Hf). simpl.
  rewrite (truthy_column_value _ _ Te), He. simpl.
  rewrite Hs. simpl. reflexivity.
Qed.

(** C3, as the code has it.  Two registrations with the same email that
    both pass field validation are both answered 201 when the password can
    be hashed, the values can be stored and the server answers: the schema
    declares no unique constraint on [email], so the second registration
    adds a second row with that email. *)
Theorem register_twice_same_email (req1 req2 : Request) (w : World)
    (e hashed1 hashed2 h1 h2 : string) :
  prop "email" (body req1) = prop "email" (body req2) ->
  truthy (prop "email" (body req1)) = true ->
  truthy (prop "password" (body req1)) = true ->
  truthy (prop "password" (body req2)) = true ->
  strict_eq (prop "password" (body req1)) (prop "verifiedPassword" (body req1)) = true ->
  strict_eq (prop "password" (body req2)) (prop "verifiedPassword" (body req2)) = true ->
  bcrypt_hash (prop "password" (body req1)) 10 = Some hashed1 ->
  bcrypt_hash (prop "password" (body req2)) 10 = Some hashed2 ->
  toSTRING (prop "email" (body req1)) = Some e ->
  toSTRING (JStr hashed1) = Some h1 ->
  toSTRING (JStr hashed2) = Some h2 ->
  hd false (faults w) = false ->
  hd false (tl (faults w)) = false ->
  exists r1 w1 r2 w2 u1 u2,
    app POST_register req1 w = (Ok r1, w1)
    /\ app POST_register req2 w1 = (Ok r2, w2)
    /\ status r1 = 201
    /\ status r2 = 201
    /\ rows (Users (db w2)) = (rows (Users (db w)) ++ [u1; u2])%list
    /\ User.email u1 = Some e
    /\ User.email u2 = Some e
    /\ User.id u2 = User.id u1 + 1.
Proof.
  intros Same Te Tp1 Tp2 Eq1 Eq2 Hh1 Hh2 He Hs1 Hs2 Hf1 Hf2.
  pose proof (register_succeeds req1 w hashed1 e h1 Te Tp1 Eq1 Hh1 He Hs1 Hf1) as R1.
  simpl in R1.
  set (w1 := {| db := with_user (registered (db w) (now w) e h1) (db w);
                faults := tl (faults w); now := now w |}) in *.
  rewrite Same in Te, He.
  pose proof (register_succeeds req2 w1 hashed2 e h2 Te Tp2 Eq2 Hh2 He Hs2 Hf2) as R2.
  simpl in R2.
  do 6 eexists.
  split; [ exact R1 | ]. split; [ exact R2 | ].
  split; [ reflexivity | ]. split; [ reflexivity | ].
  split; [ simpl; rewrite <- app_assoc; reflexivity | ].
  split; [ reflexivity | ]. split; reflexivity.
Qed.

End Duplicates.

(** The same registration sent twice to an empty database. *)
Lemma register_twice_same_email_witness :
  let req := Reference.request []
               [("email", JStr "a@x.com"); ("password", JStr "p1");
                ("verifiedPassword", JStr "p1")] [] in
  let w := Reference.world empty_db in
  exists r1 w1 r2 w2 u1 u2,
    app (platform := Reference.platform) POST_register req w = (Ok r1, w1)
    /\ app (platform := Reference.platform) POST_register req w1 = (Ok r2, w2)
    /\ status r1 = 201
    /\ status r2 = 201
    /\ rows (Users (db w2)) = (rows (Users (db w)) ++ [u1; u2])%list
    /\ User.email u1 = Some "a@x.com"
    /\ User.email u2 = Some "a@x.com"
    /\ User.id u2 = User.id u1 + 1.
Proof.
  intros req w.
  apply (register_twice_same_email (platform := Reference.platform)
           req req w "a@x.com" "$2b$p1" "$2b$p1" "$2b$p1" "$2b$p1");
    reflexivity.
Defined.

(** C3, as stated, fails: the second of two identical registrations is
    answered 201, not 500, and two rows hold the email afterwards. *)
Lemma second_registration_is_accepted :
  let req := Reference.request []
               [("email", JStr "a@x.com"); ("password", JStr "p1");
                ("verifiedPassword", JStr "p1")] [] in
  let w := Reference.world empty_db in
  exists r1 w1 r2 w2,
    app (platform := Reference.platform) POST_register req w = (Ok r1, w1)
    /\ app (platform := Reference.platform) POST_register req w1 = (Ok r2, w2)
    /\ status r1 = 201
    /\ status r2 = 201
    /\ status r2 <> 500
    /\ map User.email (rows (Users (db w2))) = [Some "a@x.com"; Some "a@x.com"].
Proof.
  simpl. do 4 eexists.
  split; [ reflexivity | ]. split; [ reflexivity | ].
  repeat split. simpl. discriminate.
Qed.

(* ================================================================= *)
(** * Login: the two ways of failing *)

Section Login.
Context {platform : Platform}.

Lemma User_findOne_where_email_same_store (email : json) (w w1 : World)
    (found : option User.t) :
  User_findOne_where_email email w = (Ok found, w1) -> same_store w w1.
Proof.
  unfold User_findOne_where_email. monad.
  destruct (query w) as [[[] | e] w0] eqn:Q; [ | discriminate ].
  pose proof (query_same_store _ _ _ Q) as S.
  destruct (where_value toSTRING email w0) as [[v | e] w0'] eqn:V; [ | discriminate ].
  assert (w0' = w0) as ->.
  { revert V. unfold where_value. monad.
    destruct email; try discriminate; try (intros E; now inversion E);
      match goal with
      | |- context [toSTRING ?x] => destruct (toSTRING x)
      end; intros E; now inversion E. }
  intros E. inversion E; subst. exact S.
Qed.





End Login.



(* ================================================================= *)
(** * Listings *)

Section Listings.
Context {platform : Platform}.

(** C10.  [GET /users] answers, whenever the server answers the query,
    with one object per row of the table, in order, each with all six
    attributes of the row: the stored password is among them, as it is in
    the table.  Nothing is projected away. *)
Theorem get_users_returns_every_attribute (req : Request) (w : World) :
  hd false (faults w) = false ->
  app GET_users req w
  = (Ok (send_json (JArr (map (fun u => JObj (User.toJSON u))
                              (rows (Users (db w)))))),
     served w)
  /\ forall u, In u (rows (Users (db w))) ->
       In (JObj (User.toJSON u))
          (map (fun u => JObj (User.toJSON u)) (rows (Users (db w))))
       /\ keys (User.toJSON u)
          = ["id"; "username"; "email"; "password"; "createdAt"; "updatedAt"]
       /\ member "id" (JObj (User.toJSON u)) = JNum (User.id u)
       /\ member "username" (JObj (User.toJSON u)) = json_of_string (User.username u)
       /\ member "email" (JObj (User.toJSON u)) = json_of_string (User.email u)
       /\ member "password" (JObj (User.toJSON u)) = json_of_string (User.password u)
       /\ member "createdAt" (JObj (User.toJSON u)) = JNum (User.createdAt u)
       /\ member "updatedAt" (JObj (User.toJSON u)) = JNum (User.updatedAt u).
Proof.
  intros F. split.
  - unfold app, get_users, User_findAll. monad. rewrite (query_ok _ F). reflexivity.
  - intros u I. split; [ | repeat split ].
    apply in_map_iff. exists u. auto.
Qed.

End Listings.

(** The listing of the two users of the reference database: the stored
    password of the first is in the answer. *)
Lemma get_users_returns_every_attribute_witness :
  let w := Reference.world Reference.blog in
  hd false (faults w) = false
  /\ (exists items,
        app (platform := Reference.platform) GET_users (Reference.request [] [] []) w
        = (Ok (send_json (JArr items)), served w)
        /\ List.length items = 2%nat
        /\ In (JObj (User.toJSON Reference.alice)) items)
  /\ member "password" (JObj (User.toJSON Reference.alice)) = JStr "$2b$p1".
Proof.
  intros w.
  destruct (get_users_returns_every_attribute (platform := Reference.platform)
              (Reference.request [] [] []) w eq_refl) as [A B].
  split; [ reflexivity | ]. split.
  - eexists. split; [ exact A | ]. split; [ reflexivity | ].
    apply (B Reference.alice). left. reflexivity.
  - apply (B Reference.alice). left. reflexivity.
Defined.

(* ================================================================= *)
(** * The listing of posts *)

Section Posts.
Context {platform : Platform}.

Lemma mentions_key_JArr (k : string) (items : list json) :
  mentions_key k (JArr items) = existsb (mentions_key k) items.
Proof.
  induction items as [ | x items IH ]; [ reflexivity | ].
  simpl in *. now rewrite IH.
Qed.

Lemma mentions_key_JObj (k : string) (fields : list (string * json)) :
  mentions_key k (JObj fields)
  = existsb (fun '(k', x) => (k =? k')%string || mentions_key k x) fields.
Proof.
  induction fields as [ | [k' x] fields IH ]; [ reflexivity | ].
  simpl in *. now rewrite IH.
Qed.

Lemma existsb_map_never {A B : Type} (f : A -> B) (g : B -> bool) (l : list A) :
  (forall a, g (f a) = false) -> existsb g (map f l) = false.
Proof.
  intros H. induction l as [ | a l IH ]; [ reflexivity | ].
  simpl. now rewrite H, IH.
Qed.

Lemma include_User_projected (d : Database) (fk : option Z) :
  author_projected (include_User ["id"; "email"] d fk)
  /\ mentions_key "password" (include_User ["id"; "email"] d fk) = false.
Proof.
  unfold include_User, author_projected.
  destruct fk as [k | ]; [ | split; [ now left | reflexivity ] ].
  destruct (User_find k d) as [u | ]; [ | split; [ now left | reflexivity ] ].
  split.
  - right. eexists. split; reflexivity.
  - simpl. destruct (User.email u); reflexivity.
Qed.

Lemma comment_with_author_hides_password (d : Database) (c : Comment.t) :
  mentions_key "password"
    (JObj (Comment.toJSON c
           ++ [("User", include_User ["id"; "email"] d (Comment.UserId c))]))
  = false.
Proof.
  rewrite mentions_key_JObj. simpl.
  rewrite (proj2 (include_User_projected d (Comment.UserId c))).
  destruct (Comment.content c), (Comment.UserId c), (Comment.PostId c); reflexivity.
Qed.

Lemma include_Comments_hides_password (d : Database) (postId : Z) :
  mentions_key "password" (include_Comments ["id"; "email"] d postId) = false.
Proof.
  unfold include_Comments. rewrite mentions_key_JArr.
  apply existsb_map_never. intros c. apply comment_with_author_hides_password.
Qed.

Lemma include_Comments_projected (d : Database) (postId : Z) :
  exists comments,
    include_Comments ["id"; "email"] d postId = JArr comments
    /\ Forall (fun c => author_projected (member "User" c)) comments.
Proof.
  unfold include_Comments. eexists. split; [ reflexivity | ].
  apply Forall_forall. intros j I. apply in_map_iff in I as (c & <- & _).
  simpl. apply include_User_projected.
Qed.

(** The serialisation of one post of the listing. *)
Lemma post_with_includes (d : Database) (p : Post.t) :
  let j := JObj (Post.toJSON p
                 ++ [("User", include_User ["id"; "email"] d (Post.UserId p));
                     ("Comments", include_Comments ["id"; "email"] d (Post.id p))]) in
  mentions_key "password" j = false
  /\ author_projected (member "User" j)
  /\ exists comments,
       member "Comments" j = JArr comments
       /\ Forall (fun c => author_projected (member "User" c)) comments.
Proof.
  intros j. split; [ | split ].
  - pose proof (proj2 (include_User_projected d (Post.UserId p))) as HU.
    pose proof (include_Comments_hides_password d (Post.id p)) as HC.
    unfold j. clear j.
    set (author := include_User ["id"; "email"] d (Post.UserId p)) in *.
    set (comments := include_Comments ["id"; "email"] d (Post.id p)) in *.
    clearbody author comments.
    rewrite mentions_key_JObj. simpl. rewrite HU, HC.
    destruct (Post.title p), (Post.content p), (Post.UserId p); reflexivity.
  - simpl. apply include_User_projected.
  - simpl. apply include_Comments_projected.
Qed.

Lemma get_posts_cases (req : Request) (w : World) :
  (hd false (faults w) = false
   /\ app GET_posts req w
      = (Ok (send_json
               (JArr (map (fun p =>
                             JObj (Post.toJSON p
                                   ++ [("User",
                                        include_User ["id"; "email"] (db w) (Post.UserId p));
                                       ("Comments",
                                        include_Comments ["id"; "email"] (db w) (Post.id p))]))
                          (rows (Posts (db w)))))),
         served w))
  \/ (hd false (faults w) = true
      /\ app GET_posts req w
         = (Ok (status_json 500 (message "Erreur lors de la récupération des posts")),
            served w)).
Proof.
  unfold app, get_posts, Post_findAll_include. monad.
  destruct (hd false (faults w)) eqn:F.
  - right. rewrite (query_fault _ F). auto.
  - left. rewrite (query_ok _ F). auto.
Qed.

(** C7.  Whatever the database holds, a successful answer of [GET /posts]
    has no [password] key anywhere in it.  It is one object per post; the
    author embedded in a post, and the author embedded in each of its
    comments, is absent or is an object with exactly the keys [id] and
    [email].  The answer is successful whenever the server answers the
    query. *)
Theorem get_posts_never_shows_a_password (req : Request) (w : World) :
  (hd false (faults w) = false ->
   exists r, app GET_posts req w = (Ok r, served w) /\ status r = 200)
  /\ forall r w',
       app GET_posts req w = (Ok r, w') ->
       status r = 200 ->
       mentions_key "password" (payload r) = false
       /\ exists posts,
            payload r = JArr posts
            /\ List.length posts = List.length (rows (Posts (db w)))
            /\ Forall (fun p =>
                         author_projected (member "User" p)
                         /\ exists comments,
                              member "Comments" p = JArr comments
                              /\ Forall (fun c => author_projected (member "User" c))
                                   comments)
                 posts.
Proof.
  destruct (get_posts_cases req w) as [[F E] | [F E]]; rewrite E; split.
  - intros _. eexists. split; reflexivity.
  - intros r w' R _. inversion R; subst.
    unfold send_json, status_json. cbn [payload]. split.
    + rewrite mentions_key_JArr. apply existsb_map_never.
      intros p. apply (post_with_includes (db w) p).
    + eexists. split; [ reflexivity | ]. split; [ apply length_map | ].
      apply Forall_forall. intros j I. apply in_map_iff in I as (p & <- & _).
      apply (post_with_includes (db w) p).
  - rewrite F. discriminate.
  - intros r w' R S. inversion R; subst. discriminate.
Qed.

End Posts.

(** The listing of the reference database. *)
Lemma get_posts_never_shows_a_password_witness :
  let w := Reference.world Reference.blog in
  exists r,
    app (platform := Reference.platform) GET_posts (Reference.request [] [] []) w
    = (Ok r, served w)
    /\ status r = 200
    /\ mentions_key "password" (payload r) = false
    /\ mentions_key "email" (payload r) = true.
Proof.
  intros w.
  destruct (get_posts_never_shows_a_password (platform := Reference.platform)
              (Reference.request [] [] []) w) as [Total Hidden].
  destruct (Total eq_refl) as (r & E & S).
  exists r. split; [ exact E | ]. split; [ exact S | ].
  split; [ apply (Hidden r (served w) E S) | ].
  assert (E' : app (platform := Reference.platform) GET_posts
                 (Reference.request [] [] []) w
               = (Ok (send_json (JArr
                   (map (fun p =>
                           JObj (Post.toJSON p
                                 ++ [("User",
                                      include_User ["id"; "email"] (db w) (Post.UserId p));
                                     ("Comments",
                                      include_Comments ["id"; "email"] (db w) (Post.id p))]))
                        (rows (Posts (db w)))))), served w)) by reflexivity.
  rewrite E in E'. inversion E'. reflexivity.
Defined.

(* ================================================================= *)
(** * Comments *)

Section Comments.
Context {platform : Platform}.

Lemma existsb_key {A : Type} (key : A -> Z) (k : Z) (l : list A) :
  existsb (Z.eqb k) (map key l)
  = match find (fun x => key x =? k) l with Some _ => true | None => false end.
Proof.
  induction l as [ | a l IH ]; [ reflexivity | ].
  simpl. rewrite (Z.eqb_sym k (key a)).
  destruct (key a =? k); [ reflexivity | exact IH ].
Qed.

Lemma comment_content_is_not_unique : is_unique CommentDef "content" = false.
Proof. reflexivity. Qed.

(** The insert of a comment is accepted when its values can be stored,
    the post and the user it references exist, and the server answers. *)
Lemma Comment_insert_ok (values : list (string * json)) (w : World)
    (content : option string) (postId userId : Z) :
  column_value toSTRING (prop "content" values) = Some content ->
  column_value toINTEGER (prop "PostId" values) = Some (Some postId) ->
  column_value toINTEGER (prop "UserId" values) = Some (Some userId) ->
  Post_find postId (db w) <> None ->
  User_find userId (db w) <> None ->
  hd false (faults w) = false ->
  let c := commented (db w) (now w) content userId postId in
  Comment_insert values w
  = (Ok c, {| db := with_comment c (db w); faults := tl (faults w); now := now w |}).
Proof.
  intros Hc Hp Hu Pe Ue F c.
  unfold Comment_insert, nullable, check_unique, check_reference. monad.
  rewrite (query_ok _ F). simpl. rewrite Hc, Hp, Hu. simpl.
  rewrite (existsb_key Post.id), (existsb_key User.id).
  unfold Post_find in Pe. unfold User_find in Ue.
  destruct (find (fun x => Post.id x =? postId) (rows (Posts (db w))));
    [ | contradiction ].
  destruct (find (fun x => User.id x =? userId) (rows (Users (db w))));
    [ | contradiction ].
  reflexivity.
Qed.

(** It is refused, and the store is left as it was, when the user it
    references does not exist. *)
Lemma Comment_insert_dangling_user (values : list (string * json)) (w : World)
    (userId : Z) :
  column_value toINTEGER (prop "UserId" values) = Some (Some userId) ->
  User_find userId (db w) = None ->
  exists e w', Comment_insert values w = (Throw e, w') /\ db w' = db w.
Proof.
  intros Hu Ue.
  unfold Comment_insert, nullable, check_unique, check_reference. monad.
  destruct (hd false (faults w)) eqn:F.
  { rewrite (query_fault _ F). do 2 eexists. split; reflexivity. }
  rewrite (query_ok _ F). simpl.
  destruct (column_value toSTRING (prop "content" values)) as [content | ];
    [ | do 2 eexists; split; reflexivity ].
  destruct (column_value toINTEGER (prop "PostId" values)) as [postId | ];
    [ | do 2 eexists; split; reflexivity ].
  rewrite Hu. simpl.
  rewrite (existsb_key User.id). unfold User_find in Ue. rewrite Ue. simpl.
  destruct postId as [k | ].
  - destruct (negb (existsb (Z.eqb k) (map Post.id (rows (Posts (db w))))));
      do 2 eexists; split; reflexivity.
  - do 2 eexists; split; reflexivity.
Qed.

(** Whatever the insert of a comment answers: refused, it leaves the store
    as it was; accepted, it has added one row, and the post and the user
    that the row references exist. *)
Lemma Comment_insert_inv (values : list (string * json)) (w w' : World)
    (r : Result Comment.t) :
  Comment_insert values w = (r, w') ->
  match r with
  | Throw _ => db w' = db w
  | Ok c =>
      db w' = with_comment c (db w)
      /\ Comment.id c = nextId (Comments (db w))
      /\ column_value toSTRING (prop "content" values) = Some (Comment.content c)
      /\ column_value toINTEGER (prop "PostId" values) = Some (Comment.PostId c)
      /\ column_value toINTEGER (prop "UserId" values) = Some (Comment.UserId c)
      /\ (forall k, Comment.PostId c = Some k -> Post_find k (db w) <> None)
      /\ (forall k, Comment.UserId c = Some k -> User_find k (db w) <> None)
  end.
Proof.
  unfold Comment_insert, nullable, check_unique, check_reference. monad.
  destruct (hd false (faults w)) eqn:F.
  { rewrite (query_fault _ F). intros E. inversion E; subst. reflexivity. }
  rewrite (query_ok _ F). simpl.
  destruct (column_value toSTRING (prop "content" values)) as [content | ];
    [ | intros E; inversion E; subst; reflexivity ].
  destruct (column_value toINTEGER (prop "PostId" values)) as [postId | ];
    [ | intros E; inversion E; subst; reflexivity ].
  destruct (column_value toINTEGER (prop "UserId" values)) as [userId | ];
    [ | intros E; inversion E; subst; reflexivity ].
  simpl.
  assert (Hp : forall k, existsb (Z.eqb k) (map Post.id (rows (Posts (db w)))) = true ->
                         Post_find k (db w) <> None).
  { intros k. rewrite (existsb_key Post.id). unfold Post_find.
    destruct (find _ _); [ discriminate | discriminate ]. }
  assert (Hu : forall k, existsb (Z.eqb k) (map User.id (rows (Users (db w)))) = true ->
                         User_find k (db w) <> None).
  { intros k. rewrite (existsb_key User.id). unfold User_find.
    destruct (find _ _); [ discriminate | discriminate ]. }
  destruct postId as [pk | ]; destruct userId as [uk | ]; simpl;
    try (destruct (existsb (Z.eqb pk) (map Post.id (rows (Posts (db w))))) eqn:Pe;
         simpl; [ | intros E; inversion E; subst; reflexivity ]);
    try (destruct (existsb (Z.eqb uk) (map User.id (rows (Users (db w))))) eqn:Ue;
         simpl; [ | intros E; inversion E; subst; reflexivity ]);
    intros E; inversion E; subst; simpl;
    (repeat split; try reflexivity);
    intros k Ek; inversion Ek; subst; auto.
Qed.

(** What [POST /posts/:postId/comments] does behind the middleware, case
    by case. *)
Lemma post_posts_comments_cases (req : Request) (uid : json) (w : World) :
  let authenticated := set_user {| id := uid |} req in
  let postId := prop "postId" (params req) in
  let failure :=
    status_json 500 (message "Erreur lors de la création du commentaire") in
  match Post_findByPk postId w with
  | (Throw _, w1) => post_posts_comments authenticated w = (Ok failure, w1)
  | (Ok None, w1) =>
      post_posts_comments authenticated w
      = (Ok (status_json 404 (message "Post non trouvé")), w1)
  | (Ok (Some _), w1) =>
      match Comment_insert [("content", prop "content" (body req));
                            ("PostId", postId);
                            ("UserId", uid)] w1 with
      | (Ok c, w2) =>
          post_posts_comments authenticated w
          = (Ok (status_json 201
                   (JObj (built (Comment.id c)
                            [("content", prop "content" (body req));
                             ("PostId", postId);
                             ("UserId", uid)]
                            (Comment.createdAt c)))), w2)
      | (Throw _, w2) => post_posts_comments authenticated w = (Ok failure, w2)
      end
  end.
Proof.
  unfold post_posts_comments, Comment_create, req_user_id. simpl. monad.
  destruct (Post_findByPk (prop "postId" (params req)) w) as [[[post | ] | e] w1];
    try reflexivity.
  destruct (Comment_insert _ w1) as [[c | e] w2]; reflexivity.
Qed.

(** Behind the middleware, a comment on an existing post by a user id
    that no row of [Users] has is refused by the foreign key: the answer
    is the 500 of the [catch], and the store is left as it was. *)
Lemma comment_by_dangling_user (req : Request) (uid : json) (k : Z)
    (w w1 : World) (post : Post.t) :
  Post_findByPk (prop "postId" (params req)) w = (Ok (Some post), w1) ->
  column_value toINTEGER uid = Some (Some k) ->
  User_find k (db w) = None ->
  exists w2,
    post_posts_comments (set_user {| id := uid |} req) w
    = (Ok (status_json 500 (message "Erreur lors de la création du commentaire")),
       w2)
    /\ db w2 = db w.
Proof.
  intros Hfind Hcast Huser.
  pose proof (post_posts_comments_cases req uid w) as Cases.
  simpl in Cases. rewrite Hfind in Cases.
  destruct (Post_findByPk_some _ _ _ _ Hfind) as (_ & _ & _ & ->).
  destruct (Comment_insert_dangling_user
              [("content", prop "content" (body req));
               ("PostId", prop "postId" (params req));
               ("UserId", uid)] (served w) k Hcast Huser)
    as (e & w2 & Hcreate & Hdb).
  rewrite Hcreate in Cases. exists w2. split; [ exact Cases | exact Hdb ].
Qed.

Lemma refers_existsb (fk : option Z) (ids : list Z) :
  refers fk ids ->
  match fk with
  | Some k => existsb (Z.eqb k) ids = true
  | None => True
  end.
Proof.
  destruct fk as [k | ]; simpl; [ | trivial ].
  intros I. apply existsb_exists. exists k. split; [ exact I | apply Z.eqb_refl ].
Qed.

Lemma existsb_refers (k : Z) (ids : list Z) :
  existsb (Z.eqb k) ids = true -> In k ids.
Proof.
  intros E. apply existsb_exists in E as (x & I & Ex).
  apply Z.eqb_eq in Ex. now subst.
Qed.

Lemma absent_user (k : Z) (d : Database) :
  ~ In k (user_ids d) -> User_find k d = None.
Proof.
  intros N. unfold User_find.
  pose proof (existsb_key User.id k (rows (Users d))) as E.
  destruct (find (fun x => User.id x =? k) (rows (Users d))); [ | reflexivity ].
  exfalso. apply N. now apply existsb_refers.
Qed.

Lemma present_user (k : Z) (d : Database) :
  User_find k d <> None -> In k (user_ids d).
Proof.
  intros N. unfold User_find in N. apply existsb_refers.
  unfold user_ids. rewrite (existsb_key User.id).
  destruct (find (fun x => User.id x =? k) (rows (Users d)));
    [ reflexivity | now contradiction N ].
Qed.

(** A key that casts to a number is there. *)
Lemma column_value_path (key : json) (k : Z) :
  column_value toINTEGER key = Some (Some k) ->
  key <> JUndefined /\ key <> JNull.
Proof.
  destruct key; simpl; try discriminate; intros _; split; discriminate.
Qed.

(** The insert of a comment is accepted when its values can be stored,
    each of its references is [NULL] or the key of a row, and the server
    answers. *)
Lemma Comment_insert_accepted (values : list (string * json)) (w : World)
    (content : option string) (postId userId : option Z) :
  column_value toSTRING (prop "content" values) = Some content ->
  column_value toINTEGER (prop "PostId" values) = Some postId ->
  column_value toINTEGER (prop "UserId" values) = Some userId ->
  refers postId (post_ids (db w)) ->
  refers userId (user_ids (db w)) ->
  hd false (faults w) = false ->
  let c := stored_comment (db w) (now w) content userId postId in
  Comment_insert values w
  = (Ok c, {| db := with_comment c (db w); faults := tl (faults w); now := now w |}).
Proof.
  intros Hc Hp Hu Rp Ru F c.
  unfold Comment_insert, nullable, check_unique, check_reference. monad.
  rewrite (query_ok _ F). simpl. rewrite Hc, Hp, Hu. simpl.
  apply refers_existsb in Rp. apply refers_existsb in Ru.
  unfold post_ids, user_ids in *.
  destruct postId as [pk | ], userId as [uk | ]; simpl;
    rewrite ?Rp, ?Ru; reflexivity.
Qed.

(** The row that an accepted insert returns carries the time of the
    insert. *)
Lemma Comment_insert_time (values : list (string * json)) (w w' : World)
    (c : Comment.t) :
  Comment_insert values w = (Ok c, w') -> Comment.createdAt c = now w.
Proof.
  unfold Comment_insert, nullable, check_unique, check_reference. monad.
  destruct (hd false (faults w)) eqn:F.
  { rewrite (query_fault _ F). discriminate. }
  rewrite (query_ok _ F). simpl.
  destruct (column_value toSTRING (prop "content" values)); [ | discriminate ].
  destruct (column_value toINTEGER (prop "PostId" values)) as [postId | ];
    [ | discriminate ].
  destruct (column_value toINTEGER (prop "UserId" values)) as [userId | ];
    [ | discriminate ].
  simpl.
  destruct postId as [pk | ]; destruct userId as [uk | ]; simpl;
    try (destruct (existsb (Z.eqb pk) (map Post.id (rows (Posts (db w)))));
         simpl; [ | discriminate ]);
    try (destruct (existsb (Z.eqb uk) (map User.id (rows (Users (db w)))));
         simpl; [ | discriminate ]);
    intros E; inversion E; reflexivity.
Qed.

(** C8, as the code has it.  Behind a valid token, whose [userId] is
    the value [uid].  When no post has the id of the path, the answer is
    404 and the store is left as it was.  When the post exists and the
    insert is accepted (the content can be stored, [uid] is absent or
    casts to the key of a user, the server answers), one comment row is
    added, with the id of that post as [PostId] and the cast of [uid] as
    [UserId] ([NULL] when the token carries none), and the answer is 201
    with the created instance: the new key, and the values of the request
    as they came, the [PostId] being the string of the path.  When the
    post exists and [uid] casts to a key that no user has, the insert is
    refused: the answer is 500 and no row is created.  And whatever the
    request: an answer 201 has added exactly one comment, whose post is a
    row and whose user is [NULL] or a row; any other answer has added no
    row. *)
Theorem comment_references_post_and_user
    (req : Request) (w w1 : World) (decoded : json) :
  truthy (prop "token" (cookies req)) = true ->
  jwt_verify (prop "token" (cookies req)) JWT_SECRET (now w) = Some decoded ->
  let postId := prop "postId" (params req) in
  let uid := member "userId" decoded in
  let values :=
    [("content", prop "content" (body req)); ("PostId", postId); ("UserId", uid)] in
  (Post_findByPk postId w = (Ok None, w1) ->
     app POST_posts_comments req w
     = (Ok (status_json 404 (message "Post non trouvé")), w1)
     /\ db w1 = db w)
  /\ (forall post content userId,
        Post_findByPk postId w = (Ok (Some post), w1) ->
        column_value toSTRING (prop "content" (body req)) = Some content ->
        column_value toINTEGER uid = Some userId ->
        refers userId (user_ids (db w)) ->
        hd false (faults w1) = false ->
        let c := stored_comment (db w) (now w) content userId (Some (Post.id post)) in
        let d := with_comment c (db w) in
        app POST_posts_comments req w
        = (Ok (status_json 201 (JObj (built (Comment.id c) values (now w)))),
           {| db := d; faults := tl (faults w1); now := now w |})
        /\ prop "PostId" (built (Comment.id c) values (now w)) = postId
        /\ rows (Comments d) = (rows (Comments (db w)) ++ [c])%list
        /\ Post_find (Post.id post) d = Some post
        /\ refers (Comment.UserId c) (user_ids d))
  /\ (forall post k,
        Post_findByPk postId w = (Ok (Some post), w1) ->
        column_value toINTEGER uid = Some (Some k) ->
        ~ In k (user_ids (db w)) ->
        exists w2,
          app POST_posts_comments req w
          = (Ok (status_json 500
                   (message "Erreur lors de la création du commentaire")), w2)
          /\ same_rows (db w) (db w2))
  /\ (forall r w',
        app POST_posts_comments req w = (Ok r, w') ->
        (status r <> 201 -> same_rows (db w) (db w'))
        /\ (status r = 201 ->
            exists post c,
              Post_find (Post.id post) (db w) = Some post
              /\ payload r
                 = JObj (built (Comment.id c) values (Comment.createdAt c))
              /\ db w' = with_comment c (db w)
              /\ Comment.id c = nextId (Comments (db w))
              /\ Comment.PostId c = Some (Post.id post)
              /\ column_value toINTEGER uid = Some (Comment.UserId c)
              /\ refers (Comment.UserId c) (user_ids (db w)))).
Proof.
  intros Ht Hv postId uid values.
  pose proof (post_posts_comments_cases req uid w) as Cases.
  simpl in Cases. fold postId values in Cases.
  assert (App : app POST_posts_comments req w
                = post_posts_comments (set_user {| id := uid |} req) w).
  { unfold app. now rewrite (isLoggedInJWT_good_token _ _ _ _ Ht Hv). }
  rewrite App. clear App.
  split; [ | split; [ | split ] ].
  - intros Hfind. rewrite Hfind in Cases. split; [ exact Cases | ].
    apply (Post_findByPk_same_store _ _ _ _ Hfind).
  - intros post content userId Hfind Hcontent Hcast Huser Hf c d.
    rewrite Hfind in Cases.
    destruct (Post_findByPk_some _ _ _ _ Hfind) as (Hkey & Hpost & _ & Hw1).
    assert (Hcreate :
      Comment_insert values w1
      = (Ok c, {| db := d; faults := tl (faults w1); now := now w |})).
    { subst w1. unfold c, d.
      apply (Comment_insert_accepted values (served w) content
               (Some (Post.id post)) userId); simpl; try assumption.
      unfold post_ids. destruct (Post_find_some _ _ _ Hpost) as [I _].
      now apply in_map. }
    rewrite Hcreate in Cases.
    split; [ exact Cases | ].
    split.
    { destruct (column_value_path postId (Post.id post) Hkey) as [Nu _].
      unfold built, values. simpl.
      destruct (prop "content" (body req)); simpl;
        destruct postId; try reflexivity; now contradiction Nu. }
    split; [ reflexivity | ]. split; [ exact Hpost | exact Huser ].
  - intros post k Hfind Hcast Hnone.
    rewrite Hfind in Cases.
    destruct (Post_findByPk_some _ _ _ _ Hfind) as (_ & _ & _ & Hw1).
    destruct (Comment_insert_dangling_user values w1 k Hcast)
      as (e & w2 & Hcreate & Hdb).
    + subst w1. apply (absent_user k (db w) Hnone).
    + rewrite Hcreate in Cases. exists w2. split; [ exact Cases | ].
      rewrite Hdb. subst w1. repeat split.
  - intros r w'.
    destruct (Post_findByPk postId w) as [[[post | ] | e] w0] eqn:Hfind;
      pose proof (Post_findByPk_reads _ _ _ _ Hfind) as [Hdb0 _].
    + destruct (Post_findByPk_some _ _ _ _ Hfind) as (Hkey & Hpost & _ & _).
      destruct (Comment_insert values w0) as [[c | e] w2] eqn:Hcreate;
        pose proof (Comment_insert_inv _ _ _ _ Hcreate) as Inv;
        rewrite Cases; intros E; inversion E; subst r w'; clear E.
      * destruct Inv as (Hd & Hcid & _ & Hp & Hu & _ & Hue).
        simpl in Hp, Hu. rewrite Hkey in Hp. inversion Hp as [Hp'].
        rewrite Hdb0 in Hd, Hcid, Hue.
        split; [ intros N; now contradiction N | ].
        intros _. exists post, c. repeat split; auto.
        destruct (Comment.UserId c) as [k | ] eqn:Ek; simpl; [ | trivial ].
        apply present_user. now apply Hue.
      * split; [ intros _; rewrite Inv, Hdb0; repeat split | discriminate ].
    + rewrite Cases. intros E. inversion E; subst.
      split; [ intros _; rewrite Hdb0; repeat split | discriminate ].
    + rewrite Cases. intros E. inversion E; subst.
      split; [ intros _; rewrite Hdb0; repeat split | discriminate ].
Qed.

End Comments.

(** The first user comments on her own post: the answer echoes the path
    parameter as it came, a string. *)
Lemma comment_references_post_and_user_witness :
  let w := Reference.world Reference.blog in
  let req := Reference.request [("postId", JStr "1")] [("content", JStr "hi")]
               [("token", JStr "alice")] in
  let c := commented Reference.blog 1000 (Some "hi") 1 1 in
  app (platform := Reference.platform) POST_posts_comments req w
  = (Ok (status_json 201
           (JObj [("id", JNum 2); ("content", JStr "hi"); ("PostId", JStr "1");
                  ("UserId", JNum 1); ("updatedAt", JNum 1000);
                  ("createdAt", JNum 1000)])),
     Reference.world (with_comment c Reference.blog))
  /\ rows (Comments (with_comment c Reference.blog)) = [Reference.comment1; c]
  /\ Post_find 1 (with_comment c Reference.blog) = Some Reference.post1.
Proof.
  intros w req c.
  destruct (comment_references_post_and_user (platform := Reference.platform)
              req w (served w) (JObj [("userId", JNum 1)]) eq_refl eq_refl)
    as (_ & Created & _).
  assert (U : refers (Some 1) (user_ids (db w))) by (left; reflexivity).
  destruct (Created Reference.post1 (Some "hi") (Some 1) eq_refl eq_refl eq_refl
              U eq_refl)
    as (A & _ & B & C & _).
  split; [ exact A | ]. split; [ exact B | exact C ].
Defined.

(** C8, as stated, fails on a token that has outlived its user (the
    tables were recreated since the login): the token is valid, the post
    exists, and the comment is refused with a 500; no row is created. *)
Lemma comment_by_vanished_user_is_refused :
  let w := Reference.world Reference.recreated in
  let req := Reference.request [("postId", JStr "1")] [("content", JStr "hi")]
               [("token", JStr "bob")] in
  jwt_verify (Platform := Reference.platform)
    (prop "token" (cookies req)) JWT_SECRET (now w)
  = Some (JObj [("userId", JNum 2)])
  /\ Post_findByPk (platform := Reference.platform) (prop "postId" (params req)) w
     = (Ok (Some Reference.post1), served w)
  /\ (exists r w',
        app (platform := Reference.platform) POST_posts_comments req w = (Ok r, w')
        /\ status r = 500
        /\ status r <> 201
        /\ rows (Comments (db w')) = []).
Proof.
  split; [ reflexivity | ]. split; [ reflexivity | ].
  do 2 eexists. split; [ reflexivity | ]. simpl.
  split; [ reflexivity | ]. split; [ discriminate | reflexivity ].
Qed.

(* ================================================================= *)
(** * Reads and writes *)

Section Reads.
Context {platform : Platform}.

Lemma reads_ret {A : Type} (a : A) : reads (ret a).
Proof. intros w r w' E. inversion E; subst. apply same_store_refl. Qed.

Lemma reads_throw {A : Type} (e : string) : reads (@throw A e).
Proof. intros w r w' E. inversion E; subst. apply same_store_refl. Qed.

Lemma reads_bind {A B : Type} (m : M A) (k : A -> M B) :
  reads m -> (forall a, reads (k a)) -> reads (bind m k).
Proof.
  intros Hm Hk w r w'. unfold bind.
  destruct (m w) as [[a | e] w1] eqn:E1; intros E.
  - apply (same_store_trans _ w1); [ apply (Hm _ _ _ E1) | apply (Hk a _ _ _ E) ].
  - inversion E; subst. apply (Hm _ _ _ E1).
Qed.

Lemma reads_try_catch {A : Type} (m : M A) (h : string -> M A) :
  reads m -> (forall e, reads (h e)) -> reads (try_catch m h).
Proof.
  intros Hm Hh w r w'. unfold try_catch.
  destruct (m w) as [[a | e] w1] eqn:E1; intros E.
  - inversion E; subst. apply (Hm _ _ _ E1).
  - apply (same_store_trans _ w1); [ apply (Hm _ _ _ E1) | apply (Hh e _ _ _ E) ].
Qed.

Lemma reads_query : reads query.
Proof. intros w r w' E. apply (query_same_store _ _ _ E). Qed.

Lemma reads_get_db : reads get_db.
Proof. intros w r w' E. inversion E; subst. apply same_store_refl. Qed.

Lemma reads_get_now : reads get_now.
Proof. intros w r w' E. inversion E; subst. apply same_store_refl. Qed.

Lemma reads_await {A : Type} (e : string) (o : option A) : reads (await e o).
Proof. destruct o; [ apply reads_ret | apply reads_throw ]. Qed.

Ltac reading :=
  repeat first
    [ apply reads_ret
    | apply reads_throw
    | apply reads_query
    | apply reads_get_db
    | apply reads_get_now
    | apply reads_await
    | apply reads_bind; [ | intros ]
    | apply reads_try_catch; [ | intros ]
    | match goal with
      | |- reads (match ?x with _ => _ end) => destruct x
      end ].

Lemma reads_where_value {A : Type} (cast : json -> option A) (v : json) :
  reads (where_value cast v).
Proof. unfold where_value. destruct v; reading. Qed.

Lemma reads_User_findByPk (key : json) : reads (User_findByPk key).
Proof. unfold User_findByPk. destruct key; reading. Qed.

Lemma reads_Post_findByPk (key : json) : reads (Post_findByPk key).
Proof. unfold Post_findByPk. destruct key; reading. Qed.

Lemma reads_Comment_findByPk (key : json) : reads (Comment_findByPk key).
Proof. unfold Comment_findByPk. destruct key; reading. Qed.

(** [reading], then the lookups that it leaves. *)
Ltac reading_lookups :=
  reading;
  first [ apply reads_where_value
        | apply reads_User_findByPk
        | apply reads_Post_findByPk
        | apply reads_Comment_findByPk ].

Lemma reads_User_findAll : reads User_findAll.
Proof. unfold User_findAll. reading. Qed.

Lemma reads_User_findOne_where_email (email : json) :
  reads (User_findOne_where_email email).
Proof. unfold User_findOne_where_email. reading_lookups. Qed.

Lemma reads_Post_findAll_include (author commenter : list string) :
  reads (Post_findAll_include author commenter).
Proof. unfold Post_findAll_include. reading. Qed.

Lemma reads_User_findByPk_include (key : json) (attrs : list string) :
  reads (User_findByPk_include key attrs).
Proof. unfold User_findByPk_include. reading_lookups. Qed.

Lemma reads_get_users (req : Request) : reads (get_users req).
Proof. unfold get_users. reading. Qed.

Lemma reads_get_posts (req : Request) : reads (get_posts req).
Proof. unfold get_posts. reading. Qed.

Lemma reads_get_users_posts (req : Request) : reads (get_users_posts req).
Proof. unfold get_users_posts. reading_lookups. Qed.

Lemma reads_post_login (req : Request) : reads (post_login req).
Proof. unfold post_login. reading_lookups. Qed.

Lemma reads_post_logout (req : Request) : reads (post_logout req).
Proof. unfold post_logout. reading. Qed.

End Reads.

Section Writes.
Context {platform : Platform}.

Lemma existsb_in (k : Z) (ids : list Z) :
  existsb (Z.eqb k) ids = true -> In k ids.
Proof.
  intros E. apply existsb_exists in E as (x & I & Ex).
  apply Z.eqb_eq in Ex. now subst.
Qed.

(** Whatever an insert answers: refused, it leaves the store as it was;
    accepted, it has added the row it returns, under the next id of the
    table, with the values of the request cast to the columns. *)
Lemma User_create_inv (values : list (string * json)) (w w' : World)
    (r : Result User.t) :
  User_create values w = (r, w') ->
  match r with
  | Throw _ => db w' = db w
  | Ok u =>
      db w' = with_user u (db w)
      /\ User.id u = nextId (Users (db w))
      /\ column_value toSTRING (prop "username" values) = Some (User.username u)
      /\ column_value toSTRING (prop "email" values) = Some (User.email u)
      /\ column_value toSTRING (prop "password" values) = Some (User.password u)
      /\ hd false (faults w) = false
  end.
Proof.
  unfold User_create, nullable, check_unique. monad.
  destruct (hd false (faults w)) eqn:F.
  { rewrite (query_fault _ F). intros E. inversion E; subst. reflexivity. }
  rewrite (query_ok _ F). simpl.
  destruct (column_value toSTRING (prop "username" values)) as [username | ];
    [ | intros E; inversion E; subst; reflexivity ].
  destruct (column_value toSTRING (prop "email" values)) as [email | ];
    [ | intros E; inversion E; subst; reflexivity ].
  destruct (column_value toSTRING (prop "password" values)) as [password | ];
    [ | intros E; inversion E; subst; reflexivity ].
  simpl. intros E. inversion E; subst. simpl. repeat split.
Qed.

Lemma Post_insert_inv (values : list (string * json)) (w w' : World)
    (r : Result Post.t) :
  Post_insert values w = (r, w') ->
  match r with
  | Throw _ => db w' = db w
  | Ok p =>
      db w' = with_post p (db w)
      /\ Post.id p = nextId (Posts (db w))
      /\ column_value toSTRING (prop "title" values) = Some (Post.title p)
      /\ column_value toSTRING (prop "content" values) = Some (Post.content p)
      /\ column_value toINTEGER (prop "UserId" values) = Some (Post.UserId p)
      /\ refers (Post.UserId p) (user_ids (db w))
      /\ hd false (faults w) = false
  end.
Proof.
  unfold Post_insert, nullable, check_unique, check_reference. monad.
  destruct (hd false (faults w)) eqn:F.
  { rewrite (query_fault _ F). intros E. inversion E; subst. reflexivity. }
  rewrite (query_ok _ F). simpl.
  destruct (column_value toSTRING (prop "title" values)) as [title | ];
    [ | intros E; inversion E; subst; reflexivity ].
  destruct (column_value toSTRING (prop "content" values)) as [content | ];
    [ | intros E; inversion E; subst; reflexivity ].
  destruct (column_value toINTEGER (prop "UserId" values)) as [[k | ] | ];
    [ | | intros E; inversion E; subst; reflexivity ]; simpl.
  - destruct (existsb (Z.eqb k) (map User.id (rows (Users (db w))))) eqn:Ex; simpl;
      intros E; inversion E; subst; simpl; [ | reflexivity ].
    repeat split. now apply existsb_in.
  - intros E. inversion E; subst. simpl. repeat split.
Qed.

(** The references of an accepted comment, as members of the key lists. *)
Lemma Comment_insert_refers (values : list (string * json)) (w w' : World)
    (c : Comment.t) :
  Comment_insert values w = (Ok c, w') ->
  refers (Comment.UserId c) (user_ids (db w))
  /\ refers (Comment.PostId c) (post_ids (db w)).
Proof.
  unfold Comment_insert, nullable, check_unique, check_reference. monad.
  destruct (hd false (faults w)) eqn:F.
  { rewrite (query_fault _ F). discriminate. }
  rewrite (query_ok _ F). simpl.
  destruct (column_value toSTRING (prop "content" values)) as [content | ];
    [ | discriminate ].
  destruct (column_value toINTEGER (prop "PostId" values)) as [postId | ];
    [ | discriminate ].
  destruct (column_value toINTEGER (prop "UserId" values)) as [userId | ];
    [ | discriminate ].
  simpl.
  destruct postId as [pk | ]; destruct userId as [uk | ]; simpl;
    try (destruct (existsb (Z.eqb pk) (map Post.id (rows (Posts (db w))))) eqn:Pe;
         simpl; [ | discriminate ]);
    try (destruct (existsb (Z.eqb uk) (map User.id (rows (Users (db w))))) eqn:Ue;
         simpl; [ | discriminate ]);
    intros E; inversion E; subst; simpl; split;
    try exact I; now apply existsb_in.
Qed.

Lemma Post_destroy_inv (p : Post.t) (w w' : World) (r : Result unit) :
  Post_destroy p w = (r, w') ->
  match r with
  | Throw _ => db w' = db w
  | Ok _ => db w' = without_post (Post.id p) (db w) /\ hd false (faults w) = false
  end.
Proof.
  unfold Post_destroy. monad.
  destruct (hd false (faults w)) eqn:F.
  - rewrite (query_fault _ F). intros E. inversion E; subst. reflexivity.
  - rewrite (query_ok _ F). simpl. intros E. inversion E; subst. split; reflexivity.
Qed.

Lemma Comment_destroy_inv (c : Comment.t) (w w' : World) (r : Result unit) :
  Comment_destroy c w = (r, w') ->
  match r with
  | Throw _ => db w' = db w
  | Ok _ => db w' = without_comment (Comment.id c) (db w) /\ hd false (faults w) = false
  end.
Proof.
  unfold Comment_destroy. monad.
  destruct (hd false (faults w)) eqn:F.
  - rewrite (query_fault _ F). intros E. inversion E; subst. reflexivity.
  - rewrite (query_ok _ F). simpl. intros E. inversion E; subst. split; reflexivity.
Qed.

(** The three ways through the middleware. *)
Lemma isLoggedInJWT_cases (req : Request) (next : Request -> M Response) (w : World) :
  (truthy (prop "token" (cookies req)) = false
   /\ isLoggedInJWT req next w = (Ok unauthorized, w))
  \/ (truthy (prop "token" (cookies req)) = true
      /\ jwt_verify (prop "token" (cookies req)) JWT_SECRET (now w) = None
      /\ isLoggedInJWT req next w = (Ok forbidden_token, w))
  \/ (exists decoded,
        truthy (prop "token" (cookies req)) = true
        /\ jwt_verify (prop "token" (cookies req)) JWT_SECRET (now w) = Some decoded
        /\ isLoggedInJWT req next w
           = next (set_user {| id := member "userId" decoded |} req) w).
Proof.
  destruct (truthy (prop "token" (cookies req))) eqn:T.
  - destruct (jwt_verify (prop "token" (cookies req)) JWT_SECRET (now w))
      as [decoded | ] eqn:V.
    + right. right. exists decoded. repeat split.
      now apply isLoggedInJWT_good_token.
    + right. left. repeat split. now apply isLoggedInJWT_bad_token.
  - left. split; [ reflexivity | ]. now apply isLoggedInJWT_no_token.
Qed.

(** What the other handlers behind the middleware do, case by case. *)
Lemma post_post_cases (req : Request) (uid : json) (w : World) :
  let authenticated := set_user {| id := uid |} req in
  let failure :=
    status_json 500 (JObj [("error", JStr "Erreur lors de la création du post")]) in
  match Post_insert [("title", prop "title" (body req));
                     ("content", prop "content" (body req));
                     ("UserId", uid)] w with
  | (Ok p, w1) =>
      post_post authenticated w
      = (Ok (send_json
               (JObj (built (Post.id p)
                        [("title", prop "title" (body req));
                         ("content", prop "content" (body req));
                         ("UserId", uid)]
                        (Post.createdAt p)))), w1)
  | (Throw _, w1) => post_post authenticated w = (Ok failure, w1)
  end.
Proof.
  unfold post_post, Post_create, req_user_id. simpl. monad.
  destruct (Post_insert _ w) as [[p | e] w1]; reflexivity.
Qed.

Lemma delete_comments_cases (req : Request) (uid : json) (w : World) :
  let authenticated := set_user {| id := uid |} req in
  let failure :=
    status_json 500 (message "Erreur lors de la suppression du commentaire") in
  match Comment_findByPk (prop "commentId" (params req)) w with
  | (Throw _, w1) => delete_comments authenticated w = (Ok failure, w1)
  | (Ok None, w1) =>
      delete_comments authenticated w
      = (Ok (status_json 404 (message "Commentaire non trouvé")), w1)
  | (Ok (Some comment), w1) =>
      if strict_neq (json_of_key (Comment.UserId comment)) uid then
        delete_comments authenticated w = (Ok forbidden_action, w1)
      else
        match Comment_destroy comment w1 with
        | (Ok _, w2) =>
            delete_comments authenticated w
            = (Ok (send_json (message "Commentaire supprimé avec succès")), w2)
        | (Throw _, w2) => delete_comments authenticated w = (Ok failure, w2)
        end
  end.
Proof.
  unfold delete_comments, req_user_id. simpl. monad.
  destruct (Comment_findByPk (prop "commentId" (params req)) w)
    as [[[comment | ] | e] w1]; try reflexivity.
  destruct (strict_neq (json_of_key (Comment.UserId comment)) uid); [ reflexivity | ].
  destruct (Comment_destroy comment w1) as [[[] | e] w2]; reflexivity.
Qed.

(** [POST /register], case by case. *)
Lemma post_register_cases (req : Request) (w : World) :
  let email := prop "email" (body req) in
  let password := prop "password" (body req) in
  let verifiedPassword := prop "verifiedPassword" (body req) in
  (exists r, post_register req w = (Ok r, w) /\ status r = 400
             /\ (truthy email && truthy password && truthy verifiedPassword
                 && strict_eq password verifiedPassword = false))
  \/ (truthy email = true /\ truthy password = true
      /\ strict_eq password verifiedPassword = true
      /\ bcrypt_hash password 10 = None
      /\ exists r, post_register req w = (Ok r, w) /\ status r = 500)
  \/ (exists hashed,
        truthy email = true /\ truthy password = true
        /\ strict_eq password verifiedPassword = true
        /\ bcrypt_hash password 10 = Some hashed
        /\ match User_create [("email", email); ("password", JStr hashed)] w with
           | (Ok u, w1) =>
               post_register req w
               = (Ok (status_json 201
                        (JObj [("message", JStr "Utilisateur enregistrer avec succés");
                               ("userId", JNum (User.id u))])), w1)
           | (Throw _, w1) =>
               exists r, post_register req w = (Ok r, w1) /\ status r = 500
           end).
Proof.
  intros email password verifiedPassword. unfold post_register.
  fold email password verifiedPassword.
  destruct (truthy email) eqn:Te; simpl;
    [ | left; eexists; repeat split ].
  destruct (truthy password) eqn:Tp; simpl;
    [ | left; eexists; repeat split ].
  destruct (truthy verifiedPassword) eqn:Tv; simpl;
    [ | left; eexists; repeat split ].
  unfold strict_neq.
  destruct (strict_eq password verifiedPassword) eqn:Eq; simpl;
    [ | left; eexists; repeat split ].
  monad.
  destruct (bcrypt_hash password 10) as [hashed | ] eqn:Hh.
  - right. right. exists hashed. repeat split.
    cbv beta iota delta [ret].
    destruct (User_create _ w) as [[u | e] w1]; [ reflexivity | ].
    eexists. split; reflexivity.
  - right. left. repeat split. eexists. split; reflexivity.
Qed.

End Writes.

(* ================================================================= *)
(** * What a request does to the store *)

Section Outcome.
Context {platform : Platform}.

Lemma outcome_of_reads (r : Route) (m : M Response) (w w' : World)
    (res : Result Response) :
  reads m -> m w = (res, w') -> outcome r w res w'.
Proof. intros R E. left. apply (R _ _ _ E). Qed.

Lemma post_register_outcome (req : Request) (w w' : World) (res : Result Response) :
  post_register req w = (res, w') -> outcome POST_register w res w'.
Proof.
  intros E.
  destruct (post_register_cases req w)
    as [(r & R & _) | [(_ & _ & _ & _ & r & R & _) | (hashed & _ & _ & _ & _ & C)]].
  - rewrite R in E. inversion E; subst. now left.
  - rewrite R in E. inversion E; subst. now left.
  - destruct (User_create _ w) as [[u | e] w1] eqn:Hc;
      pose proof (User_create_inv _ _ _ _ Hc) as Inv.
    + rewrite C in E. inversion E; subst.
      destruct Inv as (Hd & Hid & _).
      right. eexists. split; [ reflexivity | ]. split; [ reflexivity | ].
      exists u. auto.
    + destruct C as (r & R & _). rewrite R in E. inversion E; subst. now left.
Qed.

Lemma post_post_outcome (req : Request) (uid : json) (w w' : World)
    (res : Result Response) :
  post_post (set_user {| id := uid |} req) w = (res, w') ->
  outcome POST_post w res w'.
Proof.
  intros E. pose proof (post_post_cases req uid w) as C. simpl in C.
  destruct (Post_insert _ w) as [[p | e] w1] eqn:Hc;
    pose proof (Post_insert_inv _ _ _ _ Hc) as Inv;
    rewrite C in E; inversion E; subst.
  - destruct Inv as (Hd & Hid & _ & _ & _ & Hr & _).
    right. eexists. split; [ reflexivity | ]. split; [ reflexivity | ].
    exists p. auto.
  - now left.
Qed.

Lemma post_posts_comments_outcome (req : Request) (uid : json) (w w' : World)
    (res : Result Response) :
  post_posts_comments (set_user {| id := uid |} req) w = (res, w') ->
  outcome POST_posts_comments w res w'.
Proof.
  intros E. pose proof (post_posts_comments_cases req uid w) as C. simpl in C.
  destruct (Post_findByPk (prop "postId" (params req)) w)
    as [[[post | ] | e] w0] eqn:Hfind;
    pose proof (Post_findByPk_reads _ _ _ _ Hfind) as [Hdb0 _];
    try (rewrite C in E; inversion E; subst; now left).
  destruct (Comment_insert _ w0) as [[c | e] w2] eqn:Hc;
    pose proof (Comment_insert_inv _ _ _ _ Hc) as Inv;
    rewrite C in E; inversion E; subst.
  - destruct Inv as (Hd & Hid & _).
    destruct (Comment_insert_refers _ _ _ _ Hc) as [Ru Rp].
    rewrite Hdb0 in Hd, Hid, Ru, Rp.
    right. eexists. split; [ reflexivity | ]. split; [ reflexivity | ].
    exists c. auto.
  - left. congruence.
Qed.

Lemma delete_posts_outcome (req : Request) (uid : json) (w w' : World)
    (res : Result Response) :
  delete_posts (set_user {| id := uid |} req) w = (res, w') ->
  outcome DELETE_posts w res w'.
Proof.
  intros E. pose proof (delete_posts_cases req uid w) as C. simpl in C.
  destruct (Post_findByPk (prop "postId" (body req)) w)
    as [[[post | ] | e] w0] eqn:Hfind;
    pose proof (Post_findByPk_reads _ _ _ _ Hfind) as [Hdb0 _];
    try (rewrite C in E; inversion E; subst; now left).
  destruct (strict_neq (json_of_key (Post.UserId post)) uid);
    [ rewrite C in E; inversion E; subst; now left | ].
  destruct (Post_findByPk_some _ _ _ _ Hfind) as (_ & F & _ & _).
  destruct (Post_destroy post w0) as [[[] | e] w2] eqn:Hd;
    pose proof (Post_destroy_inv _ _ _ _ Hd) as Inv;
    rewrite C in E; inversion E; subst.
  - destruct Inv as [Inv _]. rewrite Hdb0 in Inv.
    right. eexists. split; [ reflexivity | ]. split; [ reflexivity | ].
    exists post. split; [ apply (Post_find_some _ _ _ F) | exact Inv ].
  - left. congruence.
Qed.

Lemma delete_comments_outcome (req : Request) (uid : json) (w w' : World)
    (res : Result Response) :
  delete_comments (set_user {| id := uid |} req) w = (res, w') ->
  outcome DELETE_comments w res w'.
Proof.
  intros E. pose proof (delete_comments_cases req uid w) as C. simpl in C.
  destruct (Comment_findByPk (prop "commentId" (params req)) w)
    as [[[comment | ] | e] w0] eqn:Hfind;
    pose proof (reads_Comment_findByPk _ _ _ _ Hfind) as [Hdb0 _];
    try (rewrite C in E; inversion E; subst; now left).
  destruct (strict_neq (json_of_key (Comment.UserId comment)) uid);
    [ rewrite C in E; inversion E; subst; now left | ].
  destruct (Comment_findByPk_some _ _ _ _ Hfind) as (_ & F & _ & _).
  destruct (Comment_destroy comment w0) as [[[] | e] w2] eqn:Hd;
    pose proof (Comment_destroy_inv _ _ _ _ Hd) as Inv;
    rewrite C in E; inversion E; subst.
  - destruct Inv as [Inv _]. rewrite Hdb0 in Inv.
    right. eexists. split; [ reflexivity | ]. split; [ reflexivity | ].
    exists comment. split; [ apply (Comment_find_some _ _ _ F) | exact Inv ].
  - left. congruence.
Qed.

(** Behind the middleware, the outcome is the handler's, or nothing. *)
Lemma protected_outcome (r : Route) (req : Request) (next : Request -> M Response)
    (w w' : World) (res : Result Response) :
  (forall uid v v' out,
     next (set_user {| id := uid |} req) v = (out, v') -> outcome r v out v') ->
  isLoggedInJWT req next w = (res, w') ->
  outcome r w res w'.
Proof.
  intros Hnext E.
  destruct (isLoggedInJWT_cases req next w)
    as [(_ & R) | [(_ & _ & R) | (decoded & _ & _ & R)]];
    rewrite R in E.
  - inversion E; subst. now left.
  - inversion E; subst. now left.
  - apply (Hnext _ _ _ _ E).
Qed.

Lemma app_outcome (r : Route) (req : Request) (w w' : World) (res : Result Response) :
  app r req w = (res, w') -> outcome r w res w'.
Proof.
  destruct r; simpl.
  - apply outcome_of_reads, reads_get_users.
  - apply post_register_outcome.
  - apply outcome_of_reads, reads_post_login.
  - apply outcome_of_reads, reads_post_logout.
  - apply protected_outcome. intros uid v v' out. apply post_post_outcome.
  - apply protected_outcome. intros uid v v' out. apply post_posts_comments_outcome.
  - apply outcome_of_reads, reads_get_posts.
  - apply outcome_of_reads, reads_get_users_posts.
  - apply protected_outcome. intros uid v v' out. apply delete_posts_outcome.
  - apply protected_outcome. intros uid v v' out. apply delete_comments_outcome.
Qed.

End Outcome.

(* ================================================================= *)
(** * Invariants of the store *)

Section Invariants.
Context {platform : Platform}.

Lemma Forall_lt_snoc (ids : list Z) (n : Z) :
  Forall (fun k => k < n) ids -> Forall (fun k => k < n + 1) (ids ++ [n]).
Proof.
  intros H. apply Forall_app. split.
  - eapply Forall_impl; [ | exact H ]. simpl. intros k Hk. lia.
  - constructor; [ lia | constructor ].
Qed.

Lemma NoDup_snoc_fresh (ids : list Z) (n : Z) :
  Forall (fun k => k < n) ids -> NoDup ids -> NoDup (ids ++ [n]).
Proof.
  intros Hlt Hnd. apply NoDup_app; [ exact Hnd | repeat constructor; auto | ].
  intros k Hin [<- | []].
  rewrite Forall_forall in Hlt. specialize (Hlt _ Hin). lia.
Qed.

Lemma refers_app (fk : option Z) (ids extra : list Z) :
  refers fk ids -> refers fk (ids ++ extra).
Proof. destruct fk; simpl; [ | trivial ]. intros H. apply in_or_app. now left. Qed.

Lemma NoDup_map_filter {A : Type} (f : A -> Z) (g : A -> bool) (l : list A) :
  NoDup (map f l) -> NoDup (map f (filter g l)).
Proof.
  induction l as [ | a l IH ]; simpl; [ trivial | ].
  intros H. inversion H as [ | x xs Hnotin Hnd ]; subst.
  destruct (g a); simpl; [ | now apply IH ].
  constructor; [ | now apply IH ].
  intros Hin. apply Hnotin. apply in_map_iff in Hin as (b & Eb & Ib).
  apply filter_In in Ib as [Ib _]. apply in_map_iff. eauto.
Qed.

Lemma Forall_map_filter {A : Type} (P : Z -> Prop) (f : A -> Z) (g : A -> bool)
    (l : list A) :
  Forall P (map f l) -> Forall P (map f (filter g l)).
Proof.
  rewrite !Forall_forall. intros H k Hin.
  apply in_map_iff in Hin as (b & <- & Ib). apply filter_In in Ib as [Ib _].
  apply H. apply in_map_iff. eauto.
Qed.

Lemma orphan_id (k : Z) (c : Comment.t) : Comment.id (orphan k c) = Comment.id c.
Proof. unfold orphan. destruct (_ && _); reflexivity. Qed.

Lemma orphan_UserId (k : Z) (c : Comment.t) :
  Comment.UserId (orphan k c) = Comment.UserId c.
Proof. unfold orphan. destruct (_ && _); reflexivity. Qed.

(** After [orphan k], a comment references no post or a post other than
    [k], the one it referenced before. *)
Lemma orphan_PostId (k : Z) (c : Comment.t) :
  match Comment.PostId (orphan k c) with
  | None => Comment.PostId c = None \/ Comment.PostId c = Some k
  | Some j => Comment.PostId c = Some j /\ j <> k
  end.
Proof.
  unfold orphan.
  assert (R : references "Comment" "Post" = true) by reflexivity.
  rewrite R. simpl.
  destruct (Comment.PostId c) as [j | ] eqn:E; simpl; [ | rewrite E; now left ].
  destruct (j =? k) eqn:Ejk; simpl.
  - apply Z.eqb_eq in Ejk. subst. now right.
  - rewrite E. split; [ reflexivity | ]. now apply Z.eqb_neq.
Qed.

Lemma comment_ids_orphaned (k : Z) (l : list Comment.t) :
  map Comment.id (map (orphan k) l) = map Comment.id l.
Proof.
  rewrite map_map. apply map_ext. intros c. apply orphan_id.
Qed.

Lemma consistent_empty : consistent empty_db.
Proof. repeat split; constructor. Qed.

(** Each write keeps the store consistent. *)
Lemma written_consistent (r : Route) (d d' : Database) :
  written r d d' -> consistent d -> consistent d'.
Proof.
  intros W ((Ult & Und) & (Plt & Pnd) & (Clt & Cnd) & Pref & Cref).
  destruct r; simpl in W; try contradiction.
  - (* a user is added *)
    destruct W as (u & Hid & ->).
    unfold consistent, user_ids, post_ids, comment_ids in *. simpl.
    rewrite map_app. simpl. rewrite Hid.
    repeat split; try assumption.
    + now apply Forall_lt_snoc.
    + now apply NoDup_snoc_fresh.
    + eapply Forall_impl; [ | exact Pref ]. intros p. apply refers_app.
    + eapply Forall_impl; [ | exact Cref ]. intros c [A B].
      split; [ now apply refers_app | exact B ].
  - (* a post is added *)
    destruct W as (p & Hid & Hr & ->).
    unfold consistent, user_ids, post_ids, comment_ids in *. simpl.
    rewrite map_app. simpl. rewrite Hid.
    repeat split; try assumption.
    + now apply Forall_lt_snoc.
    + now apply NoDup_snoc_fresh.
    + apply Forall_app. split; [ exact Pref | ]. constructor; [ exact Hr | constructor ].
    + eapply Forall_impl; [ | exact Cref ]. intros c [A B].
      split; [ exact A | now apply refers_app ].
  - (* a comment is added *)
    destruct W as (c & Hid & Hu & Hp & ->).
    unfold consistent, user_ids, post_ids, comment_ids in *. simpl.
    rewrite map_app. simpl. rewrite Hid.
    repeat split; try assumption.
    + now apply Forall_lt_snoc.
    + now apply NoDup_snoc_fresh.
    + apply Forall_app. split; [ exact Cref | ]. constructor; [ | constructor ].
      split; assumption.
  - (* a post is deleted *)
    destruct W as (p & _ & ->).
    unfold consistent, user_ids, post_ids, comment_ids in *. simpl.
    rewrite comment_ids_orphaned.
    repeat split; try assumption.
    + now apply Forall_map_filter.
    + now apply NoDup_map_filter.
    + rewrite Forall_forall in *. intros q Hq. apply filter_In in Hq as [Hq _].
      now apply Pref.
    + rewrite Forall_forall in *. intros c' Hc'.
      apply in_map_iff in Hc' as (c & <- & Hc).
      destruct (Cref c Hc) as [A B]. rewrite orphan_UserId.
      split; [ exact A | ].
      pose proof (orphan_PostId (Post.id p) c) as O.
      destruct (Comment.PostId (orphan (Post.id p) c)) as [j | ]; simpl; [ | trivial ].
      destruct O as [Ej Nj]. rewrite Ej in B. simpl in B.
      apply in_map_iff in B as (q & Eq & Iq). apply in_map_iff. exists q.
      split; [ exact Eq | ]. apply filter_In. split; [ exact Iq | ].
      apply negb_true_iff. apply Z.eqb_neq. congruence.
  - (* a comment is deleted *)
    destruct W as (c & _ & ->).
    unfold consistent, user_ids, post_ids, comment_ids in *. simpl.
    repeat split; try assumption.
    + now apply Forall_map_filter.
    + now apply NoDup_map_filter.
    + rewrite Forall_forall in *. intros q Hq. apply filter_In in Hq as [Hq _].
      now apply Cref.
Qed.

Lemma main_started (w0 w1 : World) :
  main w0 = (Ok true, w1) -> db w1 = empty_db.
Proof.
  unfold main, loadSequelize, sync. monad.
  destruct (hd false (faults w0)) eqn:F.
  - rewrite (query_fault _ F). simpl. discriminate.
  - rewrite (query_ok _ F). simpl. intros E. inversion E; subst. reflexivity.
Qed.

Lemma step_consistent (w : World) (e : Event) :
  consistent (db w) -> consistent (db (step w e)).
Proof.
  intros C. destruct e as [r req | t script]; simpl; [ | exact C ].
  destruct (app r req w) as [res w'] eqn:E. simpl.
  destruct (app_outcome _ _ _ _ _ E) as [-> | (_ & _ & _ & W)]; [ exact C | ].
  exact (written_consistent _ _ _ W C).
Qed.

(** X3.  After a boot that succeeds, and after any sequence of requests
    and of moves of the environment that follows it, the store is
    consistent: in each table the keys are distinct and below the counter
    of the table, the [UserId] of every post and of every comment is
    [NULL] or the key of a user, and the [PostId] of every comment is
    [NULL] or the key of a post. *)
Theorem store_stays_consistent (w0 w1 : World) (events : list Event) :
  main w0 = (Ok true, w1) ->
  consistent (db (run events w1)).
Proof.
  intros B.
  assert (C : consistent (db w1)).
  { rewrite (main_started w0 w1 B). apply consistent_empty. }
  clear B. revert w1 C. unfold run.
  induction events as [ | e events IH ]; intros w C; simpl; [ exact C | ].
  apply IH. now apply step_consistent.
Qed.

End Invariants.

(* ================================================================= *)
(** * Every request, over the life of the server *)

Section Requests.
Context {platform : Platform}.

(** X1.  Each route writes at most its own kind of row.  [POST /register]
    adds one user; [POST /post] one post; [POST /posts/:postId/comments]
    one comment; [DELETE /posts/:postId] removes one post (and detaches
    its comments); [DELETE /comments/:commentId] removes one comment.
    Every other route, and every one of these when it does not go
    through, leaves the store exactly as it was. *)
Theorem route_footprint (r : Route) (req : Request) (w w' : World)
    (res : Result Response) :
  app r req w = (res, w') ->
  footprint r (db w) (db w')
  /\ (mutating r = false -> r <> POST_register -> db w' = db w).
Proof.
  intros E. destruct (app_outcome _ _ _ _ _ E) as [S | (_ & _ & _ & W)].
  - split; [ now left | auto ].
  - split; [ now right | ].
    intros M N. destruct r; simpl in W, M; try contradiction; discriminate.
Qed.

(** X2.  A request that is not answered with the success status of its
    route has written nothing: after a 400, 401, 403, 404 or 500, and
    after a handler that throws, the store is as it was before. *)
Theorem failed_request_writes_nothing (r : Route) (req : Request) (w w' : World)
    (res : Result Response) :
  app r req w = (res, w') ->
  (forall e, res = Throw e -> db w' = db w)
  /\ (forall resp, res = Ok resp -> status resp <> success_status r -> db w' = db w)
  /\ (forall resp, res = Ok resp -> 400 <= status resp -> db w' = db w).
Proof.
  intros E. destruct (app_outcome _ _ _ _ _ E) as [S | (resp & -> & St & _)].
  - repeat split; intros; exact S.
  - split; [ discriminate | ]. split; intros resp' R; inversion R; subst resp'.
    + intros N. contradiction.
    + rewrite St. destruct r; simpl; lia.
Qed.

Lemma written_users (r : Route) (d d' : Database) :
  written r d d' ->
  exists added, rows (Users d') = (rows (Users d) ++ added)%list
                /\ (r <> POST_register -> added = []).
Proof.
  destruct r; simpl; try contradiction.
  - intros (u & _ & ->). exists [u]. split; [ reflexivity | ].
    intros N. now contradiction N.
  - intros (p & _ & _ & ->). exists []. simpl. rewrite app_nil_r. auto.
  - intros (c & _ & _ & _ & ->). exists []. simpl. rewrite app_nil_r. auto.
  - intros (p & _ & ->). exists []. simpl. rewrite app_nil_r. auto.
  - intros (c & _ & ->). exists []. simpl. rewrite app_nil_r. auto.
Qed.

Lemma step_users (w : World) (e : Event) :
  exists added,
    rows (Users (db (step w e))) = (rows (Users (db w)) ++ added)%list.
Proof.
  destruct e as [r req | t script]; simpl;
    [ | exists []; now rewrite app_nil_r ].
  destruct (app r req w) as [res w'] eqn:E. simpl.
  destruct (app_outcome _ _ _ _ _ E) as [-> | (_ & _ & _ & W)].
  - exists []. now rewrite app_nil_r.
  - destruct (written_users _ _ _ W) as (added & H & _). eauto.
Qed.

(** X4.  No request removes or changes an account.  Whatever requests
    follow, the rows of [Users] are the rows there were, in the same
    order and with the same values, followed by the accounts registered
    since; and a request to a route other than [POST /register] leaves
    the table as it was. *)
Theorem accounts_are_kept (w : World) (events : list Event) :
  (exists added,
     rows (Users (db (run events w))) = (rows (Users (db w)) ++ added)%list)
  /\ (forall r req, r <> POST_register ->
        rows (Users (db (snd (app r req w)))) = rows (Users (db w))).
Proof.
  split.
  - revert w. unfold run. induction events as [ | e events IH ]; intros w; simpl.
    + exists []. now rewrite app_nil_r.
    + destruct (step_users w e) as (a1 & H1).
      destruct (IH (step w e)) as (a2 & H2).
      exists (a1 ++ a2)%list. rewrite H2, H1. now rewrite app_assoc.
  - intros r req N.
    destruct (app r req w) as [res w'] eqn:E. simpl.
    destruct (app_outcome _ _ _ _ _ E) as [-> | (_ & _ & _ & W)]; [ reflexivity | ].
    destruct (written_users _ _ _ W) as (added & H & Hn).
    rewrite H, (Hn N). apply app_nil_r.
Qed.

(** ** Handlers that always answer *)

Lemma answers_ret (resp : Response) : answers (ret resp).
Proof. intros w. eexists. eexists. reflexivity. Qed.

Lemma answers_try_catch (m : M Response) (f : string -> Response) :
  answers (try_catch m (fun e => ret (f e))).
Proof.
  intros w. unfold try_catch.
  destruct (m w) as [[resp | e] w1]; eexists; eexists; reflexivity.
Qed.

Lemma answers_isLoggedInJWT (req : Request) (next : Request -> M Response) :
  (forall req', answers (next req')) -> answers (isLoggedInJWT req next).
Proof.
  intros H w.
  destruct (isLoggedInJWT_cases req next w)
    as [(_ & R) | [(_ & _ & R) | (decoded & _ & _ & R)]]; rewrite R.
  - eexists. eexists. reflexivity.
  - eexists. eexists. reflexivity.
  - apply H.
Qed.

(** X5.  Every route but [GET /users] answers every request, whatever the
    request holds and whatever the database server does: what its code
    throws is caught and becomes a 500.  [GET /users] has no [try]: when
    the query fails the handler itself throws, and when the query is
    answered it answers 200. *)
Theorem every_route_but_get_users_answers (r : Route) (req : Request) (w : World) :
  (r <> GET_users -> exists resp w', app r req w = (Ok resp, w'))
  /\ (hd false (faults w) = true ->
      exists e, app GET_users req w = (Throw e, served w))
  /\ (hd false (faults w) = false ->
      exists resp, app GET_users req w = (Ok resp, served w) /\ status resp = 200).
Proof.
  split; [ | split ].
  - intros N. destruct r; simpl.
    + now contradiction N.
    + unfold post_register.
      destruct (_ || _); [ apply answers_ret | ].
      destruct (strict_neq _ _); [ apply answers_ret | apply answers_try_catch ].
    + unfold post_login.
      destruct (_ || _); [ apply answers_ret | apply answers_try_catch ].
    + apply answers_ret.
    + apply answers_isLoggedInJWT. intros req'. apply answers_try_catch.
    + apply answers_isLoggedInJWT. intros req'. apply answers_try_catch.
    + apply answers_try_catch.
    + apply answers_try_catch.
    + apply answers_isLoggedInJWT. intros req'. apply answers_try_catch.
    + apply answers_isLoggedInJWT. intros req'. apply answers_try_catch.
  - intros F. unfold app, get_users, User_findAll. monad.
    rewrite (query_fault _ F). eexists. reflexivity.
  - intros F. unfold app, get_users, User_findAll. monad.
    rewrite (query_ok _ F). eexists. split; reflexivity.
Qed.

End Requests.

(* ================================================================= *)
(** * Rows are never edited *)

Section History.
Context {platform : Platform}.

Lemma orphan_cases (k : Z) (c : Comment.t) :
  detached_or_same c (orphan k c).
Proof. unfold orphan, detached_or_same, detach. destruct (_ && _); auto. Qed.

Lemma detached_or_same_trans (a b c : Comment.t) :
  detached_or_same a b -> detached_or_same b c -> detached_or_same a c.
Proof.
  intros [-> | ->] [-> | ->]; unfold detached_or_same; auto.
Qed.

Lemma detached_or_same_id (a b : Comment.t) :
  detached_or_same a b -> Comment.id b = Comment.id a.
Proof. intros [-> | ->]; reflexivity. Qed.

Lemma NoDup_map_inj {A : Type} (f : A -> Z) (l : list A) (a b : A) :
  NoDup (map f l) -> In a l -> In b l -> f a = f b -> a = b.
Proof.
  induction l as [ | x l IH ]; simpl; [ contradiction | ].
  intros H Ia Ib E. inversion H as [ | y ys Hnotin Hnd ]; subst.
  destruct Ia as [-> | Ia], Ib as [-> | Ib]; auto.
  - exfalso. apply Hnotin. rewrite E. now apply in_map.
  - exfalso. apply Hnotin. rewrite <- E. now apply in_map.
Qed.

Lemma descends_refl (d : Database) : descends d d.
Proof.
  repeat split; try lia; auto.
  intros c' I _. exists c'. split; [ exact I | now left ].
Qed.

Lemma written_descends (r : Route) (d d1 d2 : Database) :
  descends d d1 -> written r d1 d2 -> descends d d2.
Proof.
  intros (Np & Nc & Hp & Hc) W.
  destruct r; simpl in W; try contradiction.
  - destruct W as (u & _ & ->). repeat split; assumption.
  - destruct W as (p & Hid & _ & ->). unfold descends. simpl.
    repeat split; try lia; [ | exact Hc ].
    intros q I L. apply in_app_or in I as [I | [<- | []]]; [ now apply Hp | lia ].
  - destruct W as (c & Hid & _ & _ & ->). unfold descends. simpl.
    repeat split; try lia; [ exact Hp | ].
    intros c' I L. apply in_app_or in I as [I | [<- | []]]; [ now apply Hc | lia ].
  - destruct W as (p & _ & ->). unfold descends. simpl.
    repeat split; try lia.
    + intros q I L. apply filter_In in I as [I _]. now apply Hp.
    + intros c' I L. apply in_map_iff in I as (c1 & <- & I1).
      rewrite orphan_id in L. destruct (Hc c1 I1 L) as (c & Ic & S).
      exists c. split; [ exact Ic | ].
      eapply detached_or_same_trans; [ exact S | apply orphan_cases ].
  - destruct W as (c & _ & ->). unfold descends. simpl.
    repeat split; try lia; [ exact Hp | ].
    intros c' I L. apply filter_In in I as [I _]. now apply Hc.
Qed.

Lemma run_descends (events : list Event) (d : Database) (w : World) :
  descends d (db w) -> descends d (db (run events w)).
Proof.
  revert w. unfold run. induction events as [ | e events IH ]; intros w D; simpl;
    [ exact D | ].
  apply IH. destruct e as [r req | t script]; simpl; [ | exact D ].
  destruct (app r req w) as [res w'] eqn:E. simpl.
  destruct (app_outcome _ _ _ _ _ E) as [-> | (_ & _ & _ & W)]; [ exact D | ].
  exact (written_descends _ _ _ _ D W).
Qed.

(** X6.  No request edits a post or a comment, and no key is given out
    twice.  Take a consistent store and any sequence of requests: a post
    that a key finds afterwards, when the key found one before, is the
    very same row; a comment that a key finds afterwards is the same
    comment, at most detached from its post (the post was deleted). *)
Theorem rows_are_never_edited (w : World) (events : list Event) :
  consistent (db w) ->
  (forall k p p',
     Post_find k (db w) = Some p ->
     Post_find k (db (run events w)) = Some p' ->
     p' = p)
  /\ (forall k c c',
        Comment_find k (db w) = Some c ->
        Comment_find k (db (run events w)) = Some c' ->
        detached_or_same c c').
Proof.
  intros (_ & (Plt & Pnd) & (Clt & Cnd) & _).
  destruct (run_descends events (db w) w (descends_refl _)) as (_ & _ & Hp & Hc).
  unfold post_ids, comment_ids in *. rewrite Forall_forall in Plt, Clt.
  split.
  - intros k p p' F F'.
    destruct (Post_find_some _ _ _ F) as [I E].
    destruct (Post_find_some _ _ _ F') as [I' E'].
    assert (L : Post.id p' < nextId (Posts (db w))).
    { rewrite E', <- E. apply Plt. now apply in_map. }
    apply (NoDup_map_inj Post.id (rows (Posts (db w)))); auto. congruence.
  - intros k c c' F F'.
    destruct (Comment_find_some _ _ _ F) as [I E].
    destruct (Comment_find_some _ _ _ F') as [I' E'].
    assert (L : Comment.id c' < nextId (Comments (db w))).
    { rewrite E', <- E. apply Clt. now apply in_map. }
    destruct (Hc c' I' L) as (c0 & I0 & S).
    assert (c0 = c) as <-; [ | exact S ].
    apply (NoDup_map_inj Comment.id (rows (Comments (db w)))); auto.
    rewrite <- (detached_or_same_id _ _ S). congruence.
Qed.

End History.

(* ================================================================= *)
(** * Posts: creation and deletion *)

Section Authoring.
Context {platform : Platform}.

Lemma in_existsb (k : Z) (ids : list Z) :
  In k ids -> existsb (Z.eqb k) ids = true.
Proof.
  intros I. apply existsb_exists. exists k. split; [ exact I | apply Z.eqb_refl ].
Qed.

Lemma strict_eq_key_refl (o : option Z) :
  strict_eq (json_of_key o) (json_of_key o) = true.
Proof. destruct o; simpl; [ apply Z.eqb_refl | reflexivity ]. Qed.

(** The insert of a post is accepted when its values can be stored, the
    user it references exists, and the server answers. *)
Lemma Post_insert_ok (values : list (string * json)) (w : World)
    (title content : option string) (userId : option Z) :
  column_value toSTRING (prop "title" values) = Some title ->
  column_value toSTRING (prop "content" values) = Some content ->
  column_value toINTEGER (prop "UserId" values) = Some userId ->
  refers userId (user_ids (db w)) ->
  hd false (faults w) = false ->
  let p := posted (db w) (now w) title content userId in
  Post_insert values w
  = (Ok p, {| db := with_post p (db w); faults := tl (faults w); now := now w |}).
Proof.
  intros Ht Hc Hu Hr F p.
  unfold Post_insert, nullable, check_unique, check_reference. monad.
  rewrite (query_ok _ F). simpl. rewrite Ht, Hc, Hu. simpl.
  destruct userId as [k | ]; simpl; [ | reflexivity ].
  unfold user_ids in Hr. simpl in Hr. rewrite (in_existsb _ _ Hr). reflexivity.
Qed.

(** X7.  [POST /post] attributes the post to the user of the token.
    Behind a valid token that names user [uid]: when that user is a row,
    the title and the content can be stored ([NULL] when missing) and the
    server answers, one post is added under the next key, with [uid] as
    [UserId], and the answer is 200 with the created instance: the new
    key, the title and the content as they came in the request (no key
    for one that is missing) and [uid] as [UserId].  When no user has
    the key [uid], the insert is refused: the answer is 500 and no row is
    created. *)
Theorem post_is_attributed_to_token_user
    (req : Request) (w : World) (decoded : json) (uid : Z)
    (title content : option string) :
  truthy (prop "token" (cookies req)) = true ->
  jwt_verify (prop "token" (cookies req)) JWT_SECRET (now w) = Some decoded ->
  member "userId" decoded = JNum uid ->
  toINTEGER (JNum uid) = Some uid ->
  let values :=
    [("title", prop "title" (body req));
     ("content", prop "content" (body req));
     ("UserId", JNum uid)] in
  (column_value toSTRING (prop "title" (body req)) = Some title ->
   column_value toSTRING (prop "content" (body req)) = Some content ->
   In uid (user_ids (db w)) ->
   hd false (faults w) = false ->
   let p := posted (db w) (now w) title content (Some uid) in
   app POST_post req w
   = (Ok (send_json (JObj (built (Post.id p) values (now w)))),
      {| db := with_post p (db w); faults := tl (faults w); now := now w |})
   /\ prop "UserId" (built (Post.id p) values (now w)) = JNum uid
   /\ prop "id" (built (Post.id p) values (now w)) = JNum (nextId (Posts (db w)))
   /\ Post.UserId p = Some uid
   /\ rows (Posts (with_post p (db w))) = (rows (Posts (db w)) ++ [p])%list)
  /\ (~ In uid (user_ids (db w)) ->
      exists w',
        app POST_post req w
        = (Ok (status_json 500
                 (JObj [("error", JStr "Erreur lors de la création du post")])), w')
        /\ same_rows (db w) (db w')).
Proof.
  intros Ht Hv Hid Hcast values.
  assert (App : app POST_post req w
                = post_post (set_user {| id := member "userId" decoded |} req) w).
  { unfold app. now rewrite (isLoggedInJWT_good_token _ _ _ _ Ht Hv). }
  rewrite App. clear App. rewrite Hid.
  pose proof (post_post_cases req (JNum uid) w) as Cases.
  simpl in Cases. fold values in Cases.
  split.
  - intros Htitle Hcontent Huser F p.
    assert (Hcreate :
      Post_insert values w
      = (Ok p, {| db := with_post p (db w); faults := tl (faults w);
                  now := now w |})).
    { apply Post_insert_ok; simpl; try assumption. now rewrite Hcast. }
    rewrite Hcreate in Cases. split; [ exact Cases | ].
    split; [ | repeat split ].
    unfold built, values. simpl.
    destruct (prop "title" (body req)), (prop "content" (body req)); reflexivity.
  - intros Hnone.
    destruct (Post_insert values w) as [[p | e] w1] eqn:Hcreate;
      pose proof (Post_insert_inv _ _ _ _ Hcreate) as Inv.
    + exfalso. destruct Inv as (_ & _ & _ & _ & Hu & Hr & _).
      simpl in Hu. rewrite Hcast in Hu.
      simpl in Hu. inversion Hu as [Hu']. rewrite <- Hu' in Hr. simpl in Hr.
      now apply Hnone.
    + exists w1. split; [ exact Cases | ]. rewrite Inv. repeat split.
Qed.

Lemma find_filter_other {A : Type} (key : A -> Z) (k k0 : Z) (l : list A) :
  k <> k0 ->
  find (fun x => key x =? k) (filter (fun x => negb (key x =? k0)) l)
  = find (fun x => key x =? k) l.
Proof.
  intros N. induction l as [ | a l IH ]; [ reflexivity | ]. simpl.
  destruct (key a =? k0) eqn:E0; simpl.
  - apply Z.eqb_eq in E0.
    destruct (key a =? k) eqn:E; [ apply Z.eqb_eq in E; congruence | exact IH ].
  - destruct (key a =? k); [ reflexivity | exact IH ].
Qed.

Lemma find_filter_same {A : Type} (key : A -> Z) (k : Z) (l : list A) :
  find (fun x => key x =? k) (filter (fun x => negb (key x =? k)) l) = None.
Proof.
  induction l as [ | a l IH ]; [ reflexivity | ]. simpl.
  destruct (key a =? k) eqn:E; simpl; [ exact IH | ]. now rewrite E.
Qed.

(** X8.  [DELETE /comments/:commentId] by the owner.  Behind a valid
    token: when no comment has the key of the path, the answer is 404 and
    nothing is written; when the comment exists, its [UserId] is the user
    of the token and the server answers, the answer is 200 and exactly
    that comment has left the table: its key finds nothing, every other
    key finds what it found, and users and posts are as they were. *)
Theorem owner_deletes_comment (req : Request) (w w1 : World) (decoded : json) :
  truthy (prop "token" (cookies req)) = true ->
  jwt_verify (prop "token" (cookies req)) JWT_SECRET (now w) = Some decoded ->
  (Comment_findByPk (prop "commentId" (params req)) w = (Ok None, w1) ->
     app DELETE_comments req w
     = (Ok (status_json 404 (message "Commentaire non trouvé")), w1)
     /\ db w1 = db w)
  /\ (forall comment,
        Comment_findByPk (prop "commentId" (params req)) w
        = (Ok (Some comment), w1) ->
        json_of_key (Comment.UserId comment) = member "userId" decoded ->
        hd false (faults w1) = false ->
        let d := without_comment (Comment.id comment) (db w) in
        app DELETE_comments req w
        = (Ok (send_json (message "Commentaire supprimé avec succès")),
           {| db := d; faults := tl (faults w1); now := now w |})
        /\ Comment_find (Comment.id comment) d = None
        /\ (forall k, k <> Comment.id comment ->
                      Comment_find k d = Comment_find k (db w))
        /\ Users d = Users (db w)
        /\ Posts d = Posts (db w)).
Proof.
  intros Ht Hv.
  assert (App : app DELETE_comments req w
                = delete_comments (set_user {| id := member "userId" decoded |} req) w).
  { unfold app. now rewrite (isLoggedInJWT_good_token _ _ _ _ Ht Hv). }
  rewrite App. clear App.
  pose proof (delete_comments_cases req (member "userId" decoded) w) as Cases.
  simpl in Cases.
  split.
  - intros Hfind. rewrite Hfind in Cases. split; [ exact Cases | ].
    apply (Comment_findByPk_same_store _ _ _ _ Hfind).
  - intros comment Hfind Hown F d.
    rewrite Hfind in Cases.
    unfold strict_neq in Cases. rewrite <- Hown in Cases |- *.
    rewrite strict_eq_key_refl in Cases. simpl in Cases.
    destruct (Comment_findByPk_some _ _ _ _ Hfind) as (_ & _ & _ & ->).
    assert (Hd : Comment_destroy comment (served w)
                 = (Ok tt, {| db := d; faults := tl (faults (served w));
                              now := now w |})).
    { unfold Comment_destroy. monad. rewrite (query_ok _ F). reflexivity. }
    rewrite Hd in Cases. split; [ exact Cases | ].
    unfold d, Comment_find. simpl.
    split; [ apply find_filter_same | ].
    split; [ intros k N; now apply find_filter_other | ].
    split; reflexivity.
Qed.

Lemma orphan_eq (k : Z) (c : Comment.t) :
  orphan k c = if key_eqb (Comment.PostId c) (Some k) then detach c else c.
Proof. reflexivity. Qed.

(** X9.  [DELETE /posts/:postId] by the owner removes the post and keeps
    its comments.  Behind a valid token, when the post named in the body
    exists, its [UserId] is the user of the token and the server answers:
    the answer is 200, the key of the post finds nothing any more, and
    the table of comments has as many rows as before: the comments of
    that post are still there, detached ([PostId] is [NULL]), the other
    comments are untouched, and no comment references the deleted post. *)
Theorem owner_deletes_post_and_keeps_comments
    (req : Request) (w w1 : World) (decoded : json) (post : Post.t) :
  truthy (prop "token" (cookies req)) = true ->
  jwt_verify (prop "token" (cookies req)) JWT_SECRET (now w) = Some decoded ->
  Post_findByPk (prop "postId" (body req)) w = (Ok (Some post), w1) ->
  json_of_key (Post.UserId post) = member "userId" decoded ->
  hd false (faults w1) = false ->
  let d := without_post (Post.id post) (db w) in
  app DELETE_posts req w
  = (Ok (send_json (message "Post supprimé avec succès")),
     {| db := d; faults := tl (faults w1); now := now w |})
  /\ Post_find (Post.id post) d = None
  /\ List.length (rows (Comments d)) = List.length (rows (Comments (db w)))
  /\ (forall c, In c (rows (Comments (db w))) ->
        (Comment.PostId c = Some (Post.id post) -> In (detach c) (rows (Comments d)))
        /\ (Comment.PostId c <> Some (Post.id post) -> In c (rows (Comments d))))
  /\ (forall c', In c' (rows (Comments d)) ->
                 Comment.PostId c' <> Some (Post.id post)).
Proof.
  intros Ht Hv Hfind Hown F d.
  assert (App : app DELETE_posts req w
                = delete_posts (set_user {| id := member "userId" decoded |} req) w).
  { unfold app. now rewrite (isLoggedInJWT_good_token _ _ _ _ Ht Hv). }
  rewrite App. clear App.
  pose proof (delete_posts_cases req (member "userId" decoded) w) as Cases.
  simpl in Cases. rewrite Hfind in Cases.
  unfold strict_neq in Cases. rewrite <- Hown in Cases |- *.
  rewrite strict_eq_key_refl in Cases. simpl in Cases.
  destruct (Post_findByPk_some _ _ _ _ Hfind) as (_ & _ & _ & ->).
  assert (Hd : Post_destroy post (served w)
               = (Ok tt, {| db := d; faults := tl (faults (served w));
                            now := now w |})).
  { unfold Post_destroy. monad. rewrite (query_ok _ F). reflexivity. }
  rewrite Hd in Cases. split; [ exact Cases | ].
  unfold d, Post_find. simpl.
  split; [ apply find_filter_same | ].
  split; [ apply length_map | ].
  split.
  - intros c I. split; intros H.
    + apply in_map_iff. exists c. split; [ | exact I ].
      rewrite orphan_eq, H. simpl. now rewrite Z.eqb_refl.
    + apply in_map_iff. exists c. split; [ | exact I ].
      rewrite orphan_eq. destruct (Comment.PostId c) as [j | ]; simpl; [ | reflexivity ].
      destruct (j =? Post.id post) eqn:E; [ | reflexivity ].
      apply Z.eqb_eq in E. subst. now contradiction H.
  - intros c' I. apply in_map_iff in I as (c & <- & _).
    pose proof (orphan_PostId (Post.id post) c) as O.
    destruct (Comment.PostId (orphan (Post.id post) c)) as [j | ];
      [ | discriminate ].
    destruct O as [_ N]. congruence.
Qed.

(** X10.  [DELETE /posts/:postId] reads the key from the body alone: a
    request without [postId] in its body (or with [null]) deletes
    nothing.  Behind a valid token it is answered 404 without a query to
    the database, whatever the path says and whatever the store holds. *)
Theorem delete_post_without_body_postId
    (req : Request) (w : World) (decoded : json) :
  truthy (prop "token" (cookies req)) = true ->
  jwt_verify (prop "token" (cookies req)) JWT_SECRET (now w) = Some decoded ->
  prop "postId" (body req) = JUndefined \/ prop "postId" (body req) = JNull ->
  app DELETE_posts req w = (Ok (status_json 404 (message "Post non trouvé")), w).
Proof.
  intros Ht Hv Hbody.
  unfold app. rewrite (isLoggedInJWT_good_token _ _ _ _ Ht Hv).
  pose proof (delete_posts_cases req (member "userId" decoded) w) as Cases.
  simpl in Cases.
  destruct Hbody as [E | E]; rewrite E in Cases; exact Cases.
Qed.

End Authoring.

(* ================================================================= *)
(** * Sessions: login, and what follows a login *)

Section Sessions.
Context {platform : Platform}.

Lemma login_success (req : Request) (w w1 : World) (user : User.t) :
  truthy (prop "email" (body req)) = true ->
  truthy (prop "password" (body req)) = true ->
  User_findOne_where_email (prop "email" (body req)) w = (Ok (Some user), w1) ->
  bcrypt_compare (prop "password" (body req)) (json_of_string (User.password user))
  = Some true ->
  app POST_login req w = (Ok (logged_in user (now w)), w1).
Proof.
  intros Te Tp F C.
  destruct (User_findOne_where_email_same_store _ _ _ _ F) as [_ Hnow].
  unfold app, post_login, logged_in. rewrite Te, Tp. simpl.
  monad. rewrite F. rewrite C. simpl. now rewrite Hnow.
Qed.

Lemma find_first {A : Type} (f : A -> bool) (before after : list A) (a : A) :
  (forall x, In x before -> f x = false) ->
  f a = true ->
  find f (before ++ a :: after) = Some a.
Proof.
  intros Hb Ha. induction before as [ | b before IH ]; simpl.
  - now rewrite Ha.
  - rewrite (Hb b (or_introl eq_refl)). apply IH.
    intros x I. apply Hb. now right.
Qed.

(** The lookup of a login returns the first row, in insertion order, whose
    email matches. *)
Lemma findOne_first (email : json) (e : string) (w : World)
    (before after : list User.t) (first : User.t) :
  truthy email = true ->
  toSTRING email = Some e ->
  rows (Users (db w)) = (before ++ first :: after)%list ->
  (forall x, In x before -> where_matches (User.email x) (Some e) = false) ->
  where_matches (User.email first) (Some e) = true ->
  hd false (faults w) = false ->
  User_findOne_where_email email w = (Ok (Some first), served w).
Proof.
  intros Te He Hrows Hb Hf F.
  unfold User_findOne_where_email. monad. rewrite (query_ok _ F).
  assert (V : where_value toSTRING email (served w) = (Ok (Some e), served w)).
  { unfold where_value. monad.
    destruct email; simpl in Te; try discriminate; rewrite He; reflexivity. }
  rewrite V. simpl. rewrite Hrows. now rewrite (find_first _ _ _ _ Hb Hf).
Qed.

(** X11.  A login that succeeds sets one cookie, [token], [httpOnly],
    [secure] exactly when [NODE_ENV] is ["production"]; its value is the
    token signed for the id of the user found, for twelve hours; the
    answer is 200 and nothing is written.  A login without [email] or
    without [password] is answered 400 before the database is asked. *)
Theorem login_sets_the_token_cookie (req : Request) (w w1 : World) (user : User.t) :
  (prop "email" (body req) = JUndefined \/ prop "password" (body req) = JUndefined ->
   app POST_login req w
   = (Ok (status_json 400 (message "Email et mot de passe sont requis")), w))
  /\ (truthy (prop "email" (body req)) = true ->
      truthy (prop "password" (body req)) = true ->
      User_findOne_where_email (prop "email" (body req)) w = (Ok (Some user), w1) ->
      bcrypt_compare (prop "password" (body req))
        (json_of_string (User.password user)) = Some true ->
      app POST_login req w
      = (Ok {| status := 200;
               payload := message "connexion avec succés";
               cookieOps :=
                 [SetCookie "token"
                    (jwt_sign (JObj [("userId", JNum (User.id user))]) JWT_SECRET
                       43200 (now w))
                    true
                    (strict_eq NODE_ENV (JStr "production"))] |},
         w1)
      /\ db w1 = db w).
Proof.
  split.
  - intros Hmissing. unfold app, post_login.
    destruct Hmissing as [E | E]; rewrite E; simpl;
      rewrite ?orb_true_r; reflexivity.
  - intros Te Tp F C. split; [ apply (login_success _ _ _ _ Te Tp F C) | ].
    apply (User_findOne_where_email_same_store _ _ _ _ F).
Qed.

(** X12.  Registration, login and a first post, one after the other, on
    a server that answers.  For an email that no account has yet, and a
    platform on which the hash of a password compares true with that
    password and the fresh token verifies to claims that carry the
    [userId] signed (among others, such as the dates of issue and of
    expiry): the registration is answered 201 with the id of the new
    account; the login with the same email and password is answered 200
    and sets the token of that id; and [POST /post] with that cookie is
    answered 200 with the created instance, whose [UserId] is that id,
    the post being stored with that [UserId]. *)
Theorem register_login_post
    (w : World) (email password title content decoded : json)
    (e hashed h : string) (storedTitle storedContent : option string) :
  truthy email = true ->
  truthy password = true ->
  strict_eq password password = true ->
  bcrypt_hash password 10 = Some hashed ->
  toSTRING email = Some e ->
  toSTRING (JStr hashed) = Some h ->
  bcrypt_compare password (JStr h) = Some true ->
  sql_eq e e = true ->
  (forall x, In x (rows (Users (db w))) ->
             where_matches (User.email x) (Some e) = false) ->
  let n := nextId (Users (db w)) in
  let token := jwt_sign (JObj [("userId", JNum n)]) JWT_SECRET (12 * 3600) (now w) in
  truthy (JStr token) = true ->
  jwt_verify (JStr token) JWT_SECRET (now w) = Some decoded ->
  member "userId" decoded = JNum n ->
  toINTEGER (JNum n) = Some n ->
  column_value toSTRING title = Some storedTitle ->
  column_value toSTRING content = Some storedContent ->
  faults w = [] ->
  let registration :=
    Reference.request []
      [("email", email); ("password", password); ("verifiedPassword", password)] [] in
  let login := Reference.request [] [("email", email); ("password", password)] [] in
  let writing :=
    Reference.request [] [("title", title); ("content", content)]
      [("token", JStr token)] in
  exists w1 w2 w3 r2 p,
    app POST_register registration w
    = (Ok (status_json 201
             (JObj [("message", JStr "Utilisateur enregistrer avec succés");
                    ("userId", JNum n)])), w1)
    /\ app POST_login login w1 = (Ok r2, w2)
    /\ status r2 = 200
    /\ cookieOps r2
       = [SetCookie "token" token true (strict_eq NODE_ENV (JStr "production"))]
    /\ app POST_post writing w2
       = (Ok (send_json
                (JObj (built (Post.id p)
                         [("title", title); ("content", content);
                          ("UserId", JNum n)]
                         (now w)))), w3)
    /\ Post.UserId p = Some n
    /\ Post.title p = storedTitle
    /\ Post.content p = storedContent
    /\ In p (rows (Posts (db w3)))
    /\ In n (user_ids (db w3)).
Proof.
  intros Te Tp Eq Hh He Hs Hc Hrefl Hfree n token Tt Hv Hid Hcast Htitle Hcontent Hf
         registration login writing.
  assert (F : hd false (faults w) = false) by now rewrite Hf.
  pose proof (register_succeeds registration w hashed e h Te Tp Eq Hh He Hs F) as R1.
  simpl in R1. rewrite Hf in R1. simpl in R1.
  set (u := registered (db w) (now w) e h) in *.
  set (w1 := {| db := with_user u (db w); faults := []; now := now w |}) in *.
  assert (Found : User_findOne_where_email email w1 = (Ok (Some u), served w1)).
  { apply (findOne_first email e w1 (rows (Users (db w))) [] u); auto. }
  pose proof (login_success login w1 (served w1) u Te Tp Found Hc) as R2.
  set (w2 := served w1) in *.
  set (p := posted (db w2) (now w2) storedTitle storedContent (Some n)).
  assert (R3 : app POST_post writing w2
               = (Ok (send_json
                        (JObj (built (Post.id p)
                                 [("title", title); ("content", content);
                                  ("UserId", JNum n)]
                                 (now w)))),
                  {| db := with_post p (db w2); faults := tl (faults w2);
                     now := now w2 |})).
  { unfold app.
    rewrite (isLoggedInJWT_good_token writing post_post w2 decoded Tt Hv).
    rewrite Hid.
    pose proof (post_post_cases writing (JNum n) w2) as Cases. simpl in Cases.
    assert (Hcreate :
      Post_insert [("title", title); ("content", content); ("UserId", JNum n)] w2
      = (Ok p, {| db := with_post p (db w2); faults := tl (faults w2);
                  now := now w2 |})).
    { apply Post_insert_ok; simpl; try assumption; try reflexivity.
      - now rewrite Hcast.
      - unfold user_ids. simpl. rewrite map_app. apply in_or_app. right. now left. }
    rewrite Hcreate in Cases. exact Cases. }
  exists w1, w2,
    {| db := with_post p (db w2); faults := tl (faults w2); now := now w2 |},
    (logged_in u (now w1)), p.
  split; [ exact R1 | ]. split; [ exact R2 | ]. split; [ reflexivity | ].
  split; [ reflexivity | ]. split; [ exact R3 | ].
  split; [ reflexivity | ]. split; [ reflexivity | ]. split; [ reflexivity | ].
  split.
  - simpl. apply in_or_app. right. now left.
  - unfold user_ids. simpl. rewrite map_app. apply in_or_app. right. now left.
Qed.

End Sessions.

(* ================================================================= *)
(** * The posts of one user *)

Section UserPosts.
Context {platform : Platform}.

Lemma include_Posts_hides_password (d : Database) (userId : Z) :
  mentions_key "password" (include_Posts ["id"; "email"] d userId) = false.
Proof.
  unfold include_Posts. rewrite mentions_key_JArr.
  apply existsb_map_never. intros p.
  pose proof (include_Comments_hides_password d (Post.id p)) as HC.
  set (comments := include_Comments ["id"; "email"] d (Post.id p)) in *.
  clearbody comments.
  rewrite mentions_key_JObj. simpl. rewrite HC.
  destruct (Post.title p), (Post.content p), (Post.UserId p); reflexivity.
Qed.

Lemma key_eqb_eq (a : option Z) (k : Z) : key_eqb a (Some k) = true -> a = Some k.
Proof.
  destruct a as [j | ]; simpl; [ | discriminate ].
  intros E. apply Z.eqb_eq in E. now subst.
Qed.

Lemma get_users_posts_cases (req : Request) (w : World) :
  match User_findByPk (prop "userId" (params req)) w with
  | (Throw _, w1) =>
      get_users_posts req w
      = (Ok (status_json 500
               (message "Erreur lors de la récupération des posts de l'utilisateur")),
         w1)
  | (Ok None, w1) =>
      get_users_posts req w
      = (Ok (status_json 404 (message "Utilisateur non trouvé")), w1)
  | (Ok (Some user), w1) =>
      get_users_posts req w
      = (Ok (send_json (include_Posts ["id"; "email"] (db w1) (User.id user))), w1)
  end.
Proof.
  unfold get_users_posts, User_findByPk_include. monad.
  destruct (User_findByPk (prop "userId" (params req)) w) as [[[user | ] | e] w1];
    reflexivity.
Qed.

(** X13.  [GET /users/:userId/posts].  When no user has the key of the
    path the answer is 404.  When the user exists the answer is 200 with
    one object per post of the table whose [UserId] is that user, in the
    order of the table, and with no other post; no [password] key occurs
    anywhere in the answer (the user is not part of it, and the authors
    of the comments are reduced to [id] and [email]).  When the lookup
    fails the answer is 500.  Nothing is written in any case. *)
Theorem user_posts_listing (req : Request) (w w1 : World) :
  let userId := prop "userId" (params req) in
  (User_findByPk userId w = (Ok None, w1) ->
     app GET_users_posts req w
     = (Ok (status_json 404 (message "Utilisateur non trouvé")), w1))
  /\ (forall user,
        User_findByPk userId w = (Ok (Some user), w1) ->
        let mine :=
          filter (fun p => key_eqb (Post.UserId p) (Some (User.id user)))
            (rows (Posts (db w))) in
        exists items,
          app GET_users_posts req w = (Ok (send_json (JArr items)), w1)
          /\ map (member "id") items = map (fun p => JNum (Post.id p)) mine
          /\ Forall (fun j => member "UserId" j = JNum (User.id user)) items
          /\ (forall p, In p (rows (Posts (db w))) ->
                        Post.UserId p = Some (User.id user) ->
                        In (JNum (Post.id p)) (map (member "id") items))
          /\ mentions_key "password" (JArr items) = false)
  /\ (forall e,
        User_findByPk userId w = (Throw e, w1) ->
        exists resp, app GET_users_posts req w = (Ok resp, w1) /\ status resp = 500)
  /\ db (snd (app GET_users_posts req w)) = db w.
Proof.
  intros userId. pose proof (get_users_posts_cases req w) as Cases.
  fold userId in Cases. unfold app.
  split; [ | split; [ | split ] ].
  - intros F. rewrite F in Cases. exact Cases.
  - intros user F. rewrite F in Cases.
    destruct (reads_User_findByPk _ _ _ _ F) as [Hdb _]. rewrite Hdb in Cases.
    eexists. split; [ exact Cases | ].
    split; [ | split; [ | split ] ].
    + rewrite map_map. apply map_ext. intros p. reflexivity.
    + apply Forall_forall. intros j I. apply in_map_iff in I as (p & <- & Ip).
      apply filter_In in Ip as [_ Ep]. apply key_eqb_eq in Ep.
      simpl. now rewrite Ep.
    + intros p Ip Ep. rewrite map_map. apply in_map_iff. exists p.
      split; [ reflexivity | ]. apply filter_In. split; [ exact Ip | ].
      rewrite Ep. simpl. apply Z.eqb_refl.
    + apply (include_Posts_hides_password (db w) (User.id user)).
  - intros e F. rewrite F in Cases. eexists. split; [ exact Cases | reflexivity ].
  - destruct (get_users_posts req w) as [res w'] eqn:E. simpl.
    apply (reads_get_users_posts _ _ _ _ E).
Qed.

End UserPosts.

(* ================================================================= *)
(** * Registration: what is stored *)

Section Accounts.
Context {platform : Platform}.

(** X14.  What [POST /register] stores.  Whenever it answers 201, the
    three fields were present and the two passwords equal, the password
    was hashed, and exactly one row was added under the next key: its
    [email] is the email sent, its [password] is the hash (not the
    password sent), its [username] is [NULL]; the [userId] of the answer
    is the key of that row.  When the password cannot be hashed the
    answer is 500 and the database is not even asked. *)
Theorem registration_stores_the_hash (req : Request) (w : World) :
  let email := prop "email" (body req) in
  let password := prop "password" (body req) in
  let verifiedPassword := prop "verifiedPassword" (body req) in
  (forall resp w',
     app POST_register req w = (Ok resp, w') ->
     status resp = 201 ->
     exists hashed u,
       truthy email = true
       /\ truthy password = true
       /\ strict_eq password verifiedPassword = true
       /\ bcrypt_hash password 10 = Some hashed
       /\ column_value toSTRING email = Some (User.email u)
       /\ column_value toSTRING (JStr hashed) = Some (User.password u)
       /\ User.username u = None
       /\ User.id u = nextId (Users (db w))
       /\ member "userId" (payload resp) = JNum (User.id u)
       /\ db w' = with_user u (db w))
  /\ (truthy email = true ->
      truthy password = true ->
      strict_eq password verifiedPassword = true ->
      bcrypt_hash password 10 = None ->
      exists resp, app POST_register req w = (Ok resp, w) /\ status resp = 500).
Proof.
  intros email password verifiedPassword.
  pose proof (post_register_cases req w) as Cases. simpl in Cases.
  fold email password verifiedPassword in Cases. unfold app.
  split.
  - intros resp w' E S.
    destruct Cases
      as [(r & R & S400 & _)
         | [(_ & _ & _ & _ & r & R & S500) | (hashed & Te & Tp & Eq & Hh & C)]].
    + rewrite R in E. inversion E; subst. rewrite S400 in S. discriminate.
    + rewrite R in E. inversion E; subst. rewrite S500 in S. discriminate.
    + destruct (User_create _ w) as [[u | e] w1] eqn:Hc;
        pose proof (User_create_inv _ _ _ _ Hc) as Inv.
      * rewrite C in E. inversion E; subst.
        destruct Inv as (Hd & Hid & Hname & Hemail & Hpw & _).
        simpl in Hname, Hemail, Hpw. inversion Hname as [Hname'].
        exists hashed, u. repeat split; auto.
      * destruct C as (r & R & S500). rewrite R in E. inversion E; subst.
        rewrite S500 in S. discriminate.
  - intros Te Tp Eq Hh.
    destruct Cases
      as [(r & R & _ & B)
         | [(_ & _ & _ & _ & r & R & S500) | (hashed & _ & _ & _ & Hh' & _)]].
    + exfalso. rewrite Te, Tp in B. simpl in B.
      assert (Tv : truthy verifiedPassword = true).
      { apply strict_eq_true in Eq. rewrite <- Eq. exact Tp. }
      rewrite Tv, Eq in B. discriminate.
    + eauto.
    + congruence.
Qed.

End Accounts.

(* ================================================================= *)
(** * The theorems above, on the reference database *)

Ltac distinct :=
  repeat (constructor; [ simpl; intuition discriminate | ]); constructor.

Lemma blog_consistent : consistent Reference.blog.
Proof.
  unfold consistent, user_ids, post_ids, comment_ids. simpl.
  repeat split; try distinct; repeat constructor; simpl; auto; lia.
Qed.

Lemma route_footprint_witness :
  let w := Reference.world Reference.blog in
  let req := Reference.request [("postId", JStr "1")] [("content", JStr "hi")]
               [("token", JStr "alice")] in
  let c := commented Reference.blog 1000 (Some "hi") 1 1 in
  snd (app (platform := Reference.platform) POST_posts_comments req w)
  = Reference.world (with_comment c Reference.blog)
  /\ footprint POST_posts_comments (db w) (with_comment c Reference.blog).
Proof.
  intros w req c. split; [ reflexivity | ].
  apply (route_footprint (platform := Reference.platform)
           POST_posts_comments req w
           (Reference.world (with_comment c Reference.blog))
           (fst (app (platform := Reference.platform) POST_posts_comments req w))
           eq_refl).
Defined.

Lemma failed_request_writes_nothing_witness :
  let w := Reference.world Reference.blog in
  let req := Reference.request [("postId", JStr "1")] [("postId", JNum 1)]
               [("token", JStr "bob")] in
  app (platform := Reference.platform) DELETE_posts req w
  = (Ok forbidden_action, served w)
  /\ db (served w) = db w.
Proof.
  intros w req. split; [ reflexivity | ].
  destruct (failed_request_writes_nothing (platform := Reference.platform)
              DELETE_posts req w (served w) (Ok forbidden_action) eq_refl)
    as (_ & _ & H).
  apply (H forbidden_action eq_refl). simpl. lia.
Defined.

Lemma store_stays_consistent_witness :
  main (Reference.world Reference.blog) = (Ok true, Reference.world empty_db)
  /\ consistent
       (db (run (platform := Reference.platform)
              (Incoming POST_register
                 (Reference.request []
                    [("email", JStr "a@x.com"); ("password", JStr "p1");
                     ("verifiedPassword", JStr "p1")] [])
               :: Incoming POST_post
                    (Reference.request [] [("title", JStr "t")]
                       [("token", JStr "alice")])
               :: Reference.afternoon)
              (Reference.world empty_db))).
Proof.
  split; [ reflexivity | ].
  apply (store_stays_consistent (platform := Reference.platform)
           (Reference.world Reference.blog) (Reference.world empty_db) _ eq_refl).
Defined.

Lemma accounts_are_kept_witness :
  let w := Reference.world Reference.blog in
  (exists added,
     rows (Users (db (run (platform := Reference.platform) Reference.afternoon w)))
     = ([Reference.alice; Reference.bob] ++ added)%list)
  /\ rows (Users (db (snd (app (platform := Reference.platform) DELETE_posts
                             (Reference.request [] [("postId", JNum 2)]
                                [("token", JStr "bob")]) w))))
     = [Reference.alice; Reference.bob].
Proof.
  intros w.
  destruct (accounts_are_kept (platform := Reference.platform) w Reference.afternoon)
    as [A B].
  split; [ exact A | ]. apply B. discriminate.
Defined.

Lemma every_route_but_get_users_answers_witness :
  let w := Reference.failing Reference.blog in
  let req := Reference.request [] [] [] in
  (exists resp w', app (platform := Reference.platform) GET_posts req w = (Ok resp, w'))
  /\ (exists e, app (platform := Reference.platform) GET_users req w
                = (Throw e, served w)).
Proof.
  intros w req.
  destruct (every_route_but_get_users_answers (platform := Reference.platform)
              GET_posts req w) as (A & B & _).
  split; [ apply A; discriminate | apply B; reflexivity ].
Defined.

Lemma rows_are_never_edited_witness :
  let w := Reference.world Reference.blog in
  let w' := run (platform := Reference.platform) Reference.afternoon w in
  post_ids (db w') = [1; 3]
  /\ (forall p', Post_find 1 (db w') = Some p' -> p' = Reference.post1)
  /\ (forall c', Comment_find 1 (db w') = Some c' ->
                 detached_or_same Reference.comment1 c').
Proof.
  intros w w'.
  destruct (rows_are_never_edited (platform := Reference.platform) w Reference.afternoon
              blog_consistent) as [P C].
  split; [ reflexivity | ]. split.
  - intros p'. apply (P 1 Reference.post1 p' eq_refl).
  - intros c'. apply (C 1 Reference.comment1 c' eq_refl).
Defined.

Lemma post_is_attributed_to_token_user_witness :
  let w := Reference.world Reference.blog in
  let req := Reference.request [] [("title", JStr "t2")] [("token", JStr "alice")] in
  let p := posted Reference.blog 1000 (Some "t2") None (Some 1) in
  app (platform := Reference.platform) POST_post req w
  = (Ok (send_json
           (JObj [("id", JNum 3); ("title", JStr "t2"); ("UserId", JNum 1);
                  ("updatedAt", JNum 1000); ("createdAt", JNum 1000)])),
     Reference.world (with_post p Reference.blog))
  /\ Post.UserId p = Some 1
  /\ Post.content p = None.
Proof.
  intros w req p.
  destruct (post_is_attributed_to_token_user (platform := Reference.platform)
              req w (JObj [("userId", JNum 1)]) 1 (Some "t2") None
              eq_refl eq_refl eq_refl eq_refl) as [Created _].
  assert (I : In 1 (user_ids (db w))) by (left; reflexivity).
  destruct (Created eq_refl eq_refl I eq_refl) as (A & _ & _ & B & _).
  split; [ exact A | ]. split; [ exact B | reflexivity ].
Defined.

Lemma owner_deletes_comment_witness :
  let w := Reference.world Reference.blog in
  let req := Reference.request [("commentId", JStr "1")] [] [("token", JStr "bob")] in
  app (platform := Reference.platform) DELETE_comments req w
  = (Ok (send_json (message "Commentaire supprimé avec succès")),
     Reference.world (without_comment 1 Reference.blog))
  /\ Comment_find 1 (without_comment 1 Reference.blog) = None.
Proof.
  intros w req.
  destruct (owner_deletes_comment (platform := Reference.platform)
              req w (served w) (JObj [("userId", JNum 2)]) eq_refl eq_refl)
    as [_ Deleted].
  destruct (Deleted Reference.comment1 eq_refl eq_refl eq_refl) as (A & B & _).
  split; [ exact A | exact B ].
Defined.

Lemma owner_deletes_post_and_keeps_comments_witness :
  let w := Reference.world Reference.blog in
  let req := Reference.request [("postId", JStr "1")] [("postId", JNum 1)]
               [("token", JStr "alice")] in
  app (platform := Reference.platform) DELETE_posts req w
  = (Ok (send_json (message "Post supprimé avec succès")),
     Reference.world (without_post 1 Reference.blog))
  /\ In (detach Reference.comment1) (rows (Comments (without_post 1 Reference.blog))).
Proof.
  intros w req.
  destruct (owner_deletes_post_and_keeps_comments (platform := Reference.platform)
              req w (served w) (JObj [("userId", JNum 1)]) Reference.post1
              eq_refl eq_refl eq_refl eq_refl eq_refl)
    as (A & _ & _ & B & _).
  split; [ exact A | ].
  apply (B Reference.comment1); [ left; reflexivity | reflexivity ].
Defined.

Lemma delete_post_without_body_postId_witness :
  let w := Reference.world Reference.blog in
  let req := Reference.request [("postId", JStr "1")] [] [("token", JStr "alice")] in
  Post_find 1 (db w) = Some Reference.post1
  /\ app (platform := Reference.platform) DELETE_posts req w
     = (Ok (status_json 404 (message "Post non trouvé")), w).
Proof.
  intros w req. split; [ reflexivity | ].
  apply (delete_post_without_body_postId (platform := Reference.platform)
           req w (JObj [("userId", JNum 1)]) eq_refl eq_refl).
  left. reflexivity.
Defined.

Lemma login_sets_the_token_cookie_witness :
  let w := Reference.world Reference.blog in
  let req := Reference.request []
               [("email", JStr "a@x.com"); ("password", JStr "p1")] [] in
  app (platform := Reference.platform) POST_login req w
  = (Ok {| status := 200;
           payload := message "connexion avec succés";
           cookieOps := [SetCookie "token" "alice" true false] |}, w)
  /\ app (platform := Reference.platform) POST_login
       (Reference.request [] [("email", JStr "a@x.com")] []) w
     = (Ok (status_json 400 (message "Email et mot de passe sont requis")), w).
Proof.
  intros w req.
  destruct (login_sets_the_token_cookie (platform := Reference.platform)
              req w w Reference.alice) as [_ Success].
  destruct (login_sets_the_token_cookie (platform := Reference.platform)
              (Reference.request [] [("email", JStr "a@x.com")] []) w w
              Reference.alice) as [Missing _].
  split.
  - exact (proj1 (Success eq_refl eq_refl eq_refl eq_refl)).
  - apply Missing. right. reflexivity.
Defined.

Lemma register_login_post_witness :
  let w := Reference.world empty_db in
  jwt_verify (Platform := Reference.dated) (JStr "alice") JWT_SECRET 1000
  = Some (JObj [("userId", JNum 1); ("iat", JNum 1000); ("exp", JNum 44200)])
  /\ exists w1 w2 w3 r2 p,
    app (platform := Reference.dated) POST_register
      (Reference.request []
         [("email", JStr "a@x.com"); ("password", JStr "p1");
          ("verifiedPassword", JStr "p1")] []) w
    = (Ok (status_json 201
             (JObj [("message", JStr "Utilisateur enregistrer avec succés");
                    ("userId", JNum 1)])), w1)
    /\ app (platform := Reference.dated) POST_login
         (Reference.request [] [("email", JStr "a@x.com"); ("password", JStr "p1")] [])
         w1 = (Ok r2, w2)
    /\ status r2 = 200
    /\ cookieOps r2 = [SetCookie "token" "alice" true false]
    /\ app (platform := Reference.dated) POST_post
         (Reference.request [] [("title", JStr "t"); ("content", JStr "c")]
            [("token", JStr "alice")]) w2
       = (Ok (send_json
                (JObj (built (Post.id p)
                         [("title", JStr "t"); ("content", JStr "c");
                          ("UserId", JNum 1)] 1000))), w3)
    /\ Post.UserId p = Some 1
    /\ Post.title p = Some "t"
    /\ Post.content p = Some "c"
    /\ In p (rows (Posts (db w3)))
    /\ In 1 (user_ids (db w3)).
Proof.
  intros w. split; [ reflexivity | ].
  apply (register_login_post (platform := Reference.dated) w
           (JStr "a@x.com") (JStr "p1") (JStr "t") (JStr "c")
           (JObj [("userId", JNum 1); ("iat", JNum 1000); ("exp", JNum 44200)])
           "a@x.com" "$2b$p1" "$2b$p1" (Some "t") (Some "c"));
    try reflexivity.
  intros x [].
Defined.

Lemma user_posts_listing_witness :
  let w := Reference.world Reference.blog in
  let req := Reference.request [("userId", JStr "1")] [] [] in
  exists items,
    app (platform := Reference.platform) GET_users_posts req w
    = (Ok (send_json (JArr items)), served w)
    /\ map (member "id") items = [JNum 1]
    /\ mentions_key "password" (JArr items) = false.
Proof.
  intros w req.
  destruct (user_posts_listing (platform := Reference.platform) req w (served w))
    as (_ & Found & _).
  destruct (Found Reference.alice eq_refl) as (items & A & B & _ & _ & C).
  exists items. split; [ exact A | ]. split; [ exact B | exact C ].
Defined.

Lemma registration_stores_the_hash_witness :
  let w := Reference.world Reference.blog in
  let req := Reference.request []
               [("email", JStr "c@x.com"); ("password", JStr "p3");
                ("verifiedPassword", JStr "p3")] [] in
  let unhashable := Reference.request []
               [("email", JStr "c@x.com"); ("password", JNum 3);
                ("verifiedPassword", JNum 3)] [] in
  (exists hashed u,
     bcrypt_hash (Platform := Reference.platform) (JStr "p3") 10 = Some hashed
     /\ User.password u = Some hashed
     /\ User.email u = Some "c@x.com"
     /\ User.id u = 3)
  /\ (exists resp,
        app (platform := Reference.platform) POST_register unhashable w = (Ok resp, w)
        /\ status resp = 500).
Proof.
  intros w req unhashable.
  destruct (registration_stores_the_hash (platform := Reference.platform) req w)
    as [Stored _].
  destruct (registration_stores_the_hash (platform := Reference.platform) unhashable w)
    as [_ Refused].
  split.
  - destruct (Stored
                (status_json 201
                   (JObj [("message", JStr "Utilisateur enregistrer avec succés");
                          ("userId", JNum 3)]))
                (Reference.world
                   (with_user (registered Reference.blog 1000 "c@x.com" "$2b$p3")
                      Reference.blog))
                eq_refl eq_refl)
      as (hashed & u & _ & _ & _ & Hh & He & Hp & _ & Hid & _).
    exists hashed, u. split; [ exact Hh | ].
    simpl in Hh, He, Hp. inversion Hh; subst hashed.
    inversion He. inversion Hp. repeat split; auto.
  - apply Refused; reflexivity.
Defined.

(* ================================================================= *)
(** * One request after another *)

Section Sequences.
Context {platform : Platform}.

Lemma column_value_key (key : json) (k : Z) :
  column_value toINTEGER key = Some (Some k) ->
  toINTEGER key = Some k /\ key <> JUndefined /\ key <> JNull.
Proof.
  destruct key; simpl; try discriminate;
    (destruct (toINTEGER _) as [j | ] eqn:E; simpl; [ | discriminate ]);
    intros H; inversion H; subst; repeat split; discriminate.
Qed.

(** A lookup by a key that casts to [k], on a server that answers. *)
Lemma Comment_findByPk_eval (key : json) (k : Z) (w : World) :
  column_value toINTEGER key = Some (Some k) ->
  hd false (faults w) = false ->
  Comment_findByPk key w = (Ok (Comment_find k (db w)), served w).
Proof.
  intros C F. destruct (column_value_key _ _ C) as (T & _ & _).
  unfold Comment_findByPk.
  destruct key; try discriminate; monad;
    rewrite (query_ok _ F), T; reflexivity.
Qed.

Lemma Post_findByPk_eval (key : json) (k : Z) (w : World) :
  column_value toINTEGER key = Some (Some k) ->
  hd false (faults w) = false ->
  Post_findByPk key w = (Ok (Post_find k (db w)), served w).
Proof.
  intros C F. destruct (column_value_key _ _ C) as (T & _ & _).
  unfold Post_findByPk.
  destruct key; try discriminate; monad;
    rewrite (query_ok _ F), T; reflexivity.
Qed.

(** X15.  Deleting a comment twice.  When the owner's
    [DELETE /comments/:commentId] has gone through, the same request sent
    again (the token still valid, the server answering) is answered 404
    and writes nothing. *)
Theorem deleting_a_comment_twice
    (req : Request) (w w1 : World) (decoded : json) (comment : Comment.t) :
  truthy (prop "token" (cookies req)) = true ->
  jwt_verify (prop "token" (cookies req)) JWT_SECRET (now w) = Some decoded ->
  Comment_findByPk (prop "commentId" (params req)) w = (Ok (Some comment), w1) ->
  json_of_key (Comment.UserId comment) = member "userId" decoded ->
  hd false (faults w1) = false ->
  hd false (tl (faults w1)) = false ->
  exists w2 w3,
    app DELETE_comments req w
    = (Ok (send_json (message "Commentaire supprimé avec succès")), w2)
    /\ app DELETE_comments req w2
       = (Ok (status_json 404 (message "Commentaire non trouvé")), w3)
    /\ db w3 = db w2.
Proof.
  intros Ht Hv Hfind Hown F1 F2.
  destruct (Comment_findByPk_some _ _ _ _ Hfind) as (Hkey & _ & _ & Hw1).
  set (w2 := {| db := without_comment (Comment.id comment) (db w);
                faults := tl (faults w1); now := now w |}).
  exists w2, (served w2).
  assert (First : app DELETE_comments req w
                  = (Ok (send_json (message "Commentaire supprimé avec succès")), w2)).
  { unfold app. rewrite (isLoggedInJWT_good_token _ _ _ _ Ht Hv).
    pose proof (delete_comments_cases req (member "userId" decoded) w) as Cases.
    simpl in Cases. rewrite Hfind in Cases.
    unfold strict_neq in Cases. rewrite <- Hown in Cases |- *.
    rewrite strict_eq_key_refl in Cases. simpl in Cases.
    assert (Hd : Comment_destroy comment w1 = (Ok tt, w2)).
    { unfold Comment_destroy. monad. rewrite (query_ok _ F1). subst w1. reflexivity. }
    rewrite Hd in Cases. exact Cases. }
  split; [ exact First | ]. split; [ | reflexivity ].
  unfold app. rewrite (isLoggedInJWT_good_token _ _ w2 decoded Ht Hv).
  pose proof (delete_comments_cases req (member "userId" decoded) w2) as Cases.
  simpl in Cases.
  rewrite (Comment_findByPk_eval _ _ w2 Hkey F2) in Cases.
  unfold Comment_find in Cases. simpl in Cases.
  rewrite find_filter_same in Cases. exact Cases.
Qed.

(** X16.  No comment on a deleted post.  When the owner's
    [DELETE /posts/:postId] has gone through for the post that the body
    names, a [POST /posts/:postId/comments] whose path names the same
    post, by any user with a valid token, is answered 404 and writes
    nothing. *)
Theorem no_comment_on_a_deleted_post
    (deletion comment : Request) (w w1 : World) (owner visitor : json)
    (post : Post.t) :
  truthy (prop "token" (cookies deletion)) = true ->
  jwt_verify (prop "token" (cookies deletion)) JWT_SECRET (now w) = Some owner ->
  Post_findByPk (prop "postId" (body deletion)) w = (Ok (Some post), w1) ->
  json_of_key (Post.UserId post) = member "userId" owner ->
  hd false (faults w1) = false ->
  truthy (prop "token" (cookies comment)) = true ->
  jwt_verify (prop "token" (cookies comment)) JWT_SECRET (now w) = Some visitor ->
  column_value toINTEGER (prop "postId" (params comment)) = Some (Some (Post.id post)) ->
  hd false (tl (faults w1)) = false ->
  exists w2 w3,
    app DELETE_posts deletion w
    = (Ok (send_json (message "Post supprimé avec succès")), w2)
    /\ app POST_posts_comments comment w2
       = (Ok (status_json 404 (message "Post non trouvé")), w3)
    /\ db w3 = db w2.
Proof.
  intros Ht Hv Hfind Hown F1 Ht' Hv' Hkey F2.
  destruct (Post_findByPk_some _ _ _ _ Hfind) as (_ & _ & _ & Hw1).
  set (w2 := {| db := without_post (Post.id post) (db w);
                faults := tl (faults w1); now := now w |}).
  exists w2, (served w2).
  assert (First : app DELETE_posts deletion w
                  = (Ok (send_json (message "Post supprimé avec succès")), w2)).
  { unfold app. rewrite (isLoggedInJWT_good_token _ _ _ _ Ht Hv).
    pose proof (delete_posts_cases deletion (member "userId" owner) w) as Cases.
    simpl in Cases. rewrite Hfind in Cases.
    unfold strict_neq in Cases. rewrite <- Hown in Cases |- *.
    rewrite strict_eq_key_refl in Cases. simpl in Cases.
    assert (Hd : Post_destroy post w1 = (Ok tt, w2)).
    { unfold Post_destroy. monad. rewrite (query_ok _ F1). subst w1. reflexivity. }
    rewrite Hd in Cases. exact Cases. }
  split; [ exact First | ]. split; [ | reflexivity ].
  unfold app. rewrite (isLoggedInJWT_good_token _ _ w2 visitor Ht' Hv').
  pose proof (post_posts_comments_cases comment (member "userId" visitor) w2) as Cases.
  simpl in Cases.
  rewrite (Post_findByPk_eval _ _ w2 Hkey F2) in Cases.
  unfold Post_find in Cases. simpl in Cases.
  rewrite find_filter_same in Cases. exact Cases.
Qed.

End Sequences.

Lemma deleting_a_comment_twice_witness :
  let w := Reference.world Reference.blog in
  let req := Reference.request [("commentId", JStr "1")] [] [("token", JStr "bob")] in
  exists w2 w3,
    app (platform := Reference.platform) DELETE_comments req w
    = (Ok (send_json (message "Commentaire supprimé avec succès")), w2)
    /\ app (platform := Reference.platform) DELETE_comments req w2
       = (Ok (status_json 404 (message "Commentaire non trouvé")), w3)
    /\ db w3 = db w2.
Proof.
  intros w req.
  apply (deleting_a_comment_twice (platform := Reference.platform)
           req w (served w) (JObj [("userId", JNum 2)]) Reference.comment1);
    reflexivity.
Defined.

Lemma no_comment_on_a_deleted_post_witness :
  let w := Reference.world Reference.blog in
  let deletion := Reference.request [("postId", JStr "1")] [("postId", JNum 1)]
                    [("token", JStr "alice")] in
  let comment := Reference.request [("postId", JStr "1")] [("content", JStr "late")]
                   [("token", JStr "bob")] in
  exists w2 w3,
    app (platform := Reference.platform) DELETE_posts deletion w
    = (Ok (send_json (message "Post supprimé avec succès")), w2)
    /\ app (platform := Reference.platform) POST_posts_comments comment w2
       = (Ok (status_json 404 (message "Post non trouvé")), w3)
    /\ db w3 = db w2.
Proof.
  intros w deletion comment.
  apply (no_comment_on_a_deleted_post (platform := Reference.platform)
           deletion comment w (served w)
           (JObj [("userId", JNum 1)]) (JObj [("userId", JNum 2)]) Reference.post1);
    reflexivity.
Defined.
